(** * Hazard scoring for the dumper-truck safety system

    A shallow embedding of [backend/hazard_scoring.py]:
    [calculate_hazard_score], [calculate_zone_risk] and
    [generate_alert_message], followed by the properties the specification
    states about them.  The scorer of [backend/main.py] and the frame
    sampling of [YOLODetector.detect_video_frames] in
    [backend/model_utils.py] are embedded as well, with further properties
    of all five functions.

    Modelling conventions.
    - Python numbers ([int] and [float] alike) are exact rationals [Q]; the
      built-in [round] rounds to the nearest multiple of [10^-ndigits], ties
      to even, and returns the reduced fraction.  Binary floating-point error,
      infinities and NaN are outside the model; in particular, where the exact
      value lies halfway between two hundredths the floating-point value may
      lie on either side of it and the program may round to the other
      neighbour.
    - Python dicts with string keys are [gmap string _]; the values that occur
      in them are strings and numbers ([pyval]).
    - Exceptions are values of [exn]; a function that can raise returns a
      [result].  Sequences that the code unpacks or slices (the bounding box,
      the image shape) are lists, so a sequence of the wrong length raises
      [ValueError] where the code unpacks it.
    - Class names are byte strings that hold the UTF-8 encoding of the Python
      string.  [lower] lowercases the ASCII letters and the two code points
      outside ASCII whose lowercase form contains an ASCII letter, U+212A
      KELVIN SIGN and U+0130 LATIN CAPITAL LETTER I WITH DOT ABOVE.  Every
      other code point is kept as it is: its lowercase form has no ASCII
      character, so it occurs in no key of the tables the result is looked
      up in.
    - A video is what the code reads from the capture: whether it opened, the
      two properties it asks for and the list of frames delivered; the
      detector that runs the network is a parameter. *)

From Stdlib Require Import Ascii String QArith Qabs Qround Qminmax Lqa Lia Sorted.
From stdpp Require Import gmap strings list pretty.

Open Scope Q_scope.

(** ** Python values, exceptions and the error monad *)

Inductive pyval : Type :=
  | VStr (s : string)
  | VNum (q : Q).

Inductive exn : Type :=
  | ZeroDivisionError
  | KeyError (key : string)
  | TypeError
  | ValueError.

Inductive result (A : Type) : Type :=
  | Ok (a : A)
  | Raise (e : exn).
Arguments Ok {A} a.
Arguments Raise {A} e.

#[global] Instance result_ret : MRet result := fun _ a => Ok a.
#[global] Instance result_bind : MBind result := fun _ _ f m =>
  match m with
  | Ok a => f a
  | Raise e => Raise e
  end.
#[global] Instance result_fmap : FMap result := fun _ _ f m =>
  match m with
  | Ok a => Ok (f a)
  | Raise e => Raise e
  end.

(** [a / b] on Python numbers. *)
Definition truediv (a b : Q) : result Q :=
  if Qeq_bool b 0 then Raise ZeroDivisionError else Ok (a / b).

(** [d[key]] *)
Definition getitem {V : Type} (d : gmap string V) (key : string) : result V :=
  match d !! key with
  | Some v => Ok v
  | None => Raise (KeyError key)
  end.

(** [d.get(key, dflt)] *)
Definition dict_get {V : Type} (d : gmap string V) (key : string) (dflt : V) : V :=
  default dflt (d !! key).

(** Ordering comparisons: defined between numbers, [TypeError] between a
    number and a string (the code only ever compares with number literals). *)
Definition as_number (v : pyval) : result Q :=
  match v with
  | VNum q => Ok q
  | VStr _ => Raise TypeError
  end.

(** [a >= b], [a <= b], [a < b] with a numeric literal on one side. *)
Definition py_ge (a : pyval) (b : Q) : result bool :=
  q ← as_number a; mret (Qle_bool b q).
Definition py_le (a : Q) (b : pyval) : result bool :=
  q ← as_number b; mret (Qle_bool a q).
Definition py_lt (a : pyval) (b : Q) : result bool :=
  q ← as_number a; mret (negb (Qle_bool b q)).

(** ** [round(x, ndigits)] *)

Definition round_half_even (q : Q) : Z :=
  let f := Qfloor q in
  match Qcompare (q - inject_Z f) (1 # 2) with
  | Lt => f
  | Gt => (f + 1)%Z
  | Eq => if Z.even f then f else (f + 1)%Z
  end.

Definition round (x : Q) (ndigits : Z) : Q :=
  let scale := 10 ^ ndigits in
  Qred (inject_Z (round_half_even (x * scale)) / scale).

(** ** [str.lower] *)

(** The lowercase form of an ASCII character; other bytes are kept. *)
Definition lower_ascii (c : Ascii.ascii) : Ascii.ascii :=
  let n := nat_of_ascii c in
  if (65 <=? n)%nat && (n <=? 90)%nat then ascii_of_nat (n + 32) else c.

(** [str.lower] on the UTF-8 encoding.  U+212A KELVIN SIGN (bytes E2 84 AA)
    becomes [k]; U+0130 (bytes C4 B0) becomes [i] followed by U+0307 (bytes
    CC 87); ASCII letters are lowercased.  These are the code points whose
    lowercase form contains an ASCII character; the bytes of every other code
    point are kept. *)
Fixpoint lower (s : string) : string :=
  match s with
  | EmptyString => EmptyString
  | String c s' =>
      match c, s' with
      | "226"%char, String "132" (String "170" s'') => String "k" (lower s'')
      | "196"%char, String "176" s'' =>
          String "i" (String "204" (String "135" (lower s'')))
      | _, _ => String (lower_ascii c) (lower s')
      end
  end.

(** ** [calculate_hazard_score] *)

Definition class_multipliers : gmap string Q :=
  {[ "person" := 1.2;
     "human" := 1.2;
     "worker" := 1.2;
     "pedestrian" := 1.2;
     "child" := 1.3;
     "animal" := 1.1;
     "dog" := 1.1;
     "cat" := 1.1;
     "vehicle" := 0.9;
     "car" := 0.9;
     "truck" := 0.9;
     "bicycle" := 1.0;
     "motorcycle" := 1.0 ]}.

(** [x1, y1, x2, y2 = bbox] *)
Definition unpack4 (bbox : list Q) : result (Q * Q * Q * Q) :=
  match bbox with
  | [x1; y1; x2; y2] => Ok (x1, y1, x2, y2)
  | _ => Raise ValueError
  end.

(** [image_height, image_width = image_shape[:2]] *)
Definition unpack2 (xs : list Q) : result (Q * Q) :=
  match xs with
  | [a; b] => Ok (a, b)
  | _ => Raise ValueError
  end.

(** The four branches of the level cascade: level, distance, colour, action. *)
Definition classify (final_score : Q) : string * string * string * string :=
  if Qle_bool 80 final_score then
    ("CRITICAL", "0-2m", "#FF0000", "STOP IMMEDIATELY")
  else if Qle_bool 60 final_score then
    ("HIGH", "2-5m", "#FF6B00", "PROCEED WITH CAUTION")
  else if Qle_bool 40 final_score then
    ("MEDIUM", "5-8m", "#FFD700", "MONITOR CLOSELY")
  else
    ("LOW", "8m+", "#00FF00", "SAFE TO PROCEED").

Definition calculate_hazard_score
    (bbox : list Q) (image_shape : list Q) (class_name : string)
    : result (gmap string pyval) :=
  '(x1, y1, x2, y2) ← unpack4 bbox;
  let bbox_width := x2 - x1 in
  let bbox_height := y2 - y1 in
  let bbox_area := bbox_width * bbox_height in
  '(image_height, image_width) ← unpack2 (take 2 image_shape);
  let image_area := image_height * image_width in
  size_ratio ← truediv bbox_area image_area;
  bottom_position ← truediv y2 image_height;
  let base_score := (size_ratio * 700) + (bottom_position * 30) in
  let base_score := Qmin base_score 100 in
  let multiplier := dict_get class_multipliers (lower class_name) 1.0 in
  let final_score := Qmin (base_score * multiplier) 100 in
  let '(hazard_level, estimated_distance, color_code, action) :=
    classify final_score in
  mret ({[ "score" := VNum (round final_score 2);
           "level" := VStr hazard_level;
           "estimated_distance" := VStr estimated_distance;
           "color_code" := VStr color_code;
           "recommended_action" := VStr action;
           "priority" := VNum multiplier ]} : gmap string pyval).

(** ** [calculate_zone_risk] *)

(** [sum(1 for d in xs if cond(d))]; the first element on which [cond] raises
    aborts the whole sum. *)
Fixpoint count_where {A : Type} (cond : A → result bool) (xs : list A)
    : result Z :=
  match xs with
  | [] => mret 0%Z
  | d :: ds =>
      b ← cond d;
      n ← count_where cond ds;
      mret (if b : bool then (1 + n)%Z else n)
  end.

(** [max(key(d) for d in xs)]: the running maximum is replaced only by a
    strictly greater item, so the first greatest item is returned.  All items
    that reach this point in [calculate_zone_risk] are numbers (a string
    would have raised in the counts before). *)
Fixpoint max_from {A : Type} (key : A → result pyval) (best : Q) (xs : list A)
    : result Q :=
  match xs with
  | [] => mret best
  | d :: ds =>
      v ← key d;
      q ← as_number v;
      max_from key (if Qle_bool q best then best else q) ds
  end.

Definition py_max {A : Type} (key : A → result pyval) (xs : list A)
    : result Q :=
  match xs with
  | [] => Raise ValueError
  | d :: ds => v ← key d; q ← as_number v; max_from key q ds
  end.

Definition hazard_of (d : gmap string pyval) : result pyval :=
  getitem d "hazard_score".

Definition is_critical (d : gmap string pyval) : result bool :=
  v ← hazard_of d; py_ge v 80.

(** [60 <= d["hazard_score"] < 80]: a chained comparison, the subscript is
    evaluated once and the second test only when the first holds. *)
Definition in_range (lo hi : Q) (d : gmap string pyval) : result bool :=
  v ← hazard_of d;
  b ← py_le lo v;
  if b : bool then py_lt v hi else mret false.

Definition calculate_zone_risk
    (detections : list (gmap string pyval)) (image_shape : list Q)
    : result (gmap string pyval) :=
  match detections with
  | [] =>
      mret ({[ "overall_risk" := VStr "SAFE";
               "max_hazard_score" := VNum 0;
               "critical_objects" := VNum 0;
               "high_priority_objects" := VNum 0;
               "recommendation" := VStr "No objects detected. Safe to proceed." ]}
            : gmap string pyval)
  | _ :: _ =>
      critical_count ← count_where is_critical detections;
      high_count ← count_where (in_range 60 80) detections;
      medium_count ← count_where (in_range 40 60) detections;
      max_hazard ← py_max hazard_of detections;
      let '(overall_risk, recommendation) :=
        if (0 <? critical_count)%Z then
          ("CRITICAL",
           "STOP! " +:+ pretty critical_count
             +:+ " object(s) in critical zone (0-2m)")
        else if (0 <? high_count)%Z then
          ("HIGH",
           "CAUTION: " +:+ pretty high_count
             +:+ " object(s) in high-risk zone (2-5m)")
        else if (0 <? medium_count)%Z then
          ("MEDIUM",
           "MONITOR: " +:+ pretty medium_count
             +:+ " object(s) detected (5-8m)")
        else
          ("LOW", "Objects detected at safe distance (8m+)") in
      mret ({[ "overall_risk" := VStr overall_risk;
               "max_hazard_score" := VNum (round max_hazard 2);
               "critical_objects" := VNum (inject_Z critical_count);
               "high_risk_objects" := VNum (inject_Z high_count);
               "medium_risk_objects" := VNum (inject_Z medium_count);
               "total_objects" := VNum (inject_Z (Z.of_nat (length detections)));
               "recommendation" := VStr recommendation ]}
            : gmap string pyval)
  end.

(** ** [generate_alert_message] *)

Definition alerts : gmap string string :=
  {[ "CRITICAL" := "⚠️ CRITICAL ALERT: Object detected in immediate vicinity! STOP DUMPING!";
     "HIGH" := "⚠️ HIGH RISK: Object approaching danger zone. Proceed with extreme caution.";
     "MEDIUM" := "⚡ CAUTION: Object detected nearby. Monitor before dumping.";
     "LOW" := "✓ LOW RISK: Area monitored. Safe to proceed.";
     "SAFE" := "✓ SAFE: No objects detected in monitoring zones." ]}.

(** [alerts.get(risk_level, "Status unknown")]: a number is hashable and is
    no key of [alerts]. *)
Definition generate_alert_message (zone_risk : gmap string pyval)
    : result string :=
  risk_level ← getitem zone_risk "overall_risk";
  mret (match risk_level with
        | VStr s => dict_get alerts s "Status unknown"
        | VNum _ => "Status unknown"
        end).

(** * [backend/main.py]: the scorer of the service layer *)

Module main.

  (** The function takes whatever numbers it is given; the endpoints call it
      with NumPy scalars, on which a division by zero does not raise.  The
      statements about it assume a non-zero image area. *)

Definition class_weights : gmap string Q :=
  {[ "person" := 1.0;
     "worker" := 1.0;
     "car" := 0.95;
     "truck" := 0.98;
     "bus" := 0.96;
     "motorcycle" := 0.9;
     "bicycle" := 0.8;
     "dog" := 0.55;
     "cat" := 0.35 ]}.

(** [class_weights.get(class_name.lower(), 0.7) if class_name else 0.7]:
    [None] and the empty string are falsy. *)
Definition weight_of (class_name : option string) : Q :=
  match class_name with
  | Some c => if bool_decide (c = "") then 0.7
              else dict_get class_weights (lower c) 0.7
  | None => 0.7
  end.

(** The two assignments of each branch of the level cascade. *)
Definition classify (score : Q) : string * string :=
  if Qle_bool 80 score then ("CRITICAL", "0-2m")
  else if Qle_bool 60 score then ("HIGH", "2-5m")
  else if Qle_bool 40 score then ("MEDIUM", "5-8m")
  else ("LOW", "8m+").

Definition calculate_hazard_score
    (bbox : list Q) (image_shape : list Q) (class_name : option string)
    : result (gmap string pyval) :=
  '(x1, y1, x2, y2) ← unpack4 bbox;
  let bbox_width := x2 - x1 in
  let bbox_height := y2 - y1 in
  let bbox_area := bbox_width * bbox_height in
  '(image_height, image_width) ← unpack2 (take 2 image_shape);
  let image_area := image_height * image_width in
  size_ratio ← truediv bbox_area image_area;
  bottom_position ← truediv y2 image_height;
  let weight := weight_of class_name in
  let score := ((size_ratio * 700) + (bottom_position * 30)) * weight in
  let score := Qmin score 100 in
  let '(hazard_level, estimated_distance) := classify score in
  mret ({[ "score" := VNum (round score 2);
           "level" := VStr hazard_level;
           "estimated_distance" := VStr estimated_distance ]}
        : gmap string pyval).

End main.

(** * [backend/model_utils.py]: sampling the frames of a video *)

Module YOLODetector.

(** What [detect_video_frames] reads from [cv2.VideoCapture]: whether the
    file opened, the two properties it asks for (after [int(...)]), and the
    frames that [cap.read()] delivers before it reports the end. *)
Record video (frame : Type) : Type := {
  is_opened : bool;
  prop_frame_count : Z;
  prop_fps : Z;
  frames : list frame
}.
Arguments is_opened {frame} _.
Arguments prop_frame_count {frame} _.
Arguments prop_fps {frame} _.
Arguments frames {frame} _.

(** One entry of [frame_results]. *)
Record frame_result (D : Type) : Type := {
  frame_number : Z;
  timestamp : Q;
  detections : list D
}.
Arguments frame_number {D} _.
Arguments timestamp {D} _.
Arguments detections {D} _.

(** The returned dict. *)
Record video_result (D : Type) : Type := {
  total_frames : Z;
  fps : Z;
  processed_frames : Z;
  frame_results : list (frame_result D)
}.
Arguments total_frames {D} _.
Arguments fps {D} _.
Arguments processed_frames {D} _.
Arguments frame_results {D} _.

(** [a % b] on Python ints. *)
Definition py_mod (a b : Z) : result Z :=
  if (b =? 0)%Z then Raise ZeroDivisionError else Ok (a mod b)%Z.

(** The [while] loop of lines 85-101, one iteration per frame that
    [cap.read()] delivers; [detect_image] is the method of the same class,
    which runs the network. *)
Fixpoint read_loop {frame D : Type} (detect_image : frame → result (list D))
    (process_every_n_frames fps : Z) (frame_idx : Z) (rest : list frame)
    (frame_results : list (frame_result D))
    : result (list (frame_result D)) :=
  match rest with
  | [] => mret frame_results
  | frame :: rest' =>
      r ← py_mod frame_idx process_every_n_frames;
      frame_results' ←
        (if (r =? 0)%Z then
           detections ← detect_image frame;
           match detections with
           | [] => mret frame_results
           | _ :: _ =>
               t ← truediv (inject_Z frame_idx) (inject_Z fps);
               mret (frame_results ++
                       [{| frame_number := frame_idx;
                           timestamp := round t 2;
                           detections := detections |}])
           end
         else mret frame_results);
      read_loop detect_image process_every_n_frames fps
                (frame_idx + 1)%Z rest' frame_results'
  end.

Definition detect_video_frames {frame D : Type}
    (detect_image : frame → result (list D))
    (video_path : video frame) (process_every_n_frames : Z)
    : result (video_result D) :=
  let cap := video_path in
  if negb (is_opened cap) then Raise ValueError
  else
    let frame_count := prop_frame_count cap in
    let fps := prop_fps cap in
    frame_results ←
      read_loop detect_image process_every_n_frames fps 0%Z (frames cap) [];
    mret {| total_frames := frame_count;
            fps := fps;
            processed_frames := Z.of_nat (length frame_results);
            frame_results := frame_results |}.

End YOLODetector.

(** * Auxiliary definitions used in the statements *)

(** The fields of a hazard record, in the order of the returned dict. *)
Definition record_fields (r : gmap string pyval) : list (option pyval) :=
  (r !!.) <$> ["score"; "level"; "estimated_distance"; "color_code";
               "recommended_action"; "priority"].

(** The fields of a zone-risk dict for a non-empty input. *)
Definition zone_fields (r : gmap string pyval) : list (option pyval) :=
  (r !!.) <$> ["overall_risk"; "max_hazard_score"; "critical_objects";
               "high_risk_objects"; "medium_risk_objects"; "total_objects";
               "recommendation"].

(** A detection dict as the service layer builds it from a hazard score. *)
Definition detection (score : Q) : gmap string pyval :=
  {[ "hazard_score" := VNum score ]}.

(** The UTF-8 encoding of U+212A KELVIN SIGN. *)
Definition kelvin_sign : string :=
  String "226" (String "132" (String "170" EmptyString)).

(** [case_variant name key]: [key] consists of lowercase ASCII letters and
    [name] is [key] with some of its letters in upper case. *)
Fixpoint case_variant (name key : string) : Prop :=
  match name, key with
  | EmptyString, EmptyString => True
  | String a name', String k key' =>
      (97 <= nat_of_ascii k <= 122)%nat
      ∧ (a = k ∨ (nat_of_ascii a + 32)%nat = nat_of_ascii k)
      ∧ case_variant name' key'
  | _, _ => False
  end.

(** The three cases of [lower] on a non-empty string. *)
Inductive lower_head (c : Ascii.ascii) (s : string) : Prop :=
  | lower_head_kelvin s'' :
      c = "226"%char → s = String "132" (String "170" s'') →
      lower (String c s) = String "k" (lower s'') → lower_head c s
  | lower_head_dotted_I s'' :
      c = "196"%char → s = String "176" s'' →
      lower (String c s)
      = String "i" (String "204" (String "135" (lower s''))) →
      lower_head c s
  | lower_head_other :
      (c = "226"%char → ∀ s'', s ≠ String "132" (String "170" s'')) →
      (c = "196"%char → ∀ s'', s ≠ String "176" s'') →
      lower (String c s) = String (lower_ascii c) (lower s) → lower_head c s.

(** The multiplier line 55 computes for a class name. *)
Definition multiplier_of (class_name : string) : Q :=
  dict_get class_multipliers (lower class_name) 1.0.

(** The value of [final_score] (line 56) before it is rounded. *)
Definition final_score_of (x1 y1 x2 y2 h w : Q) (class_name : string) : Q :=
  Qmin (Qmin ((x2 - x1) * (y2 - y1) / (h * w) * 700 + y2 / h * 30) 100
        * multiplier_of class_name) 100.

(** The dict returned on line 80 for a given [final_score] and multiplier. *)
Definition hazard_record (final_score multiplier : Q) : gmap string pyval :=
  let '(hazard_level, estimated_distance, color_code, action) :=
    classify final_score in
  {[ "score" := VNum (round final_score 2);
     "level" := VStr hazard_level;
     "estimated_distance" := VStr estimated_distance;
     "color_code" := VStr color_code;
     "recommended_action" := VStr action;
     "priority" := VNum multiplier ]}.

(** The multiplier table in the words of the specification. *)
Definition spec_multiplier (key : string) : Q :=
  if bool_decide (key ∈ ["person"; "human"; "worker"; "pedestrian"]) then 1.2
  else if bool_decide (key = "child") then 1.3
  else if bool_decide (key ∈ ["animal"; "dog"; "cat"]) then 1.1
  else if bool_decide (key ∈ ["vehicle"; "car"; "truck"]) then 0.9
  else if bool_decide (key ∈ ["bicycle"; "motorcycle"]) then 1.0
  else 1.0.

(** The [score] field of the returned record, if the call returns one. *)
Definition score_of (bbox image_shape : list Q) (class_name : string)
    : result (option pyval) :=
  (.!! "score") <$> calculate_hazard_score bbox image_shape class_name.

(** The [level] field of the returned record, if the call returns one. *)
Definition level_of (bbox image_shape : list Q) (class_name : string)
    : result (option pyval) :=
  (.!! "level") <$> calculate_hazard_score bbox image_shape class_name.

(** The record [d] carries the number [s] under the key the aggregator reads. *)
Definition has_hazard_score (d : gmap string pyval) (s : Q) : Prop :=
  d !! "hazard_score" = Some (VNum s).

(** The number stored under [hazard_score], 0 when there is none. *)
Definition score_value (d : gmap string pyval) : Q :=
  match d !! "hazard_score" with
  | Some (VNum q) => q
  | _ => 0
  end.

(** The number a hazard record stores under [score], 0 when there is none. *)
Definition record_score (r : gmap string pyval) : Q :=
  match r !! "score" with
  | Some (VNum q) => q
  | _ => 0
  end.

(** Membership of a score in the bucket [lo <= s < hi]. *)
Definition in_bucket (lo hi s : Q) : bool :=
  Qle_bool lo s && negb (Qle_bool hi s).

(** How many of the scores satisfy [p]. *)
Fixpoint count_scores (p : Q → bool) (scores : list Q) : Z :=
  match scores with
  | [] => 0%Z
  | s :: ss => if p s then (1 + count_scores p ss)%Z else count_scores p ss
  end.

(** The running maximum that [max] keeps while it walks the scores. *)
Definition running_max (best : Q) (scores : list Q) : Q :=
  foldl (λ best q, if Qle_bool q best then best else q) best scores.

Definition max_score (scores : list Q) : Q :=
  match scores with
  | [] => 0
  | s :: ss => running_max s ss
  end.

(** The dict returned on line 133, from the three counts, the rounded
    maximum and the number of detections. *)
Definition zone_report
    (critical_count high_count medium_count : Z) (rounded_max : Q) (total : nat)
    : gmap string pyval :=
  let '(overall_risk, recommendation) :=
    if (0 <? critical_count)%Z then
      ("CRITICAL",
       "STOP! " +:+ pretty critical_count
         +:+ " object(s) in critical zone (0-2m)")
    else if (0 <? high_count)%Z then
      ("HIGH",
       "CAUTION: " +:+ pretty high_count
         +:+ " object(s) in high-risk zone (2-5m)")
    else if (0 <? medium_count)%Z then
      ("MEDIUM",
       "MONITOR: " +:+ pretty medium_count
         +:+ " object(s) detected (5-8m)")
    else
      ("LOW", "Objects detected at safe distance (8m+)") in
  {[ "overall_risk" := VStr overall_risk;
     "max_hazard_score" := VNum rounded_max;
     "critical_objects" := VNum (inject_Z critical_count);
     "high_risk_objects" := VNum (inject_Z high_count);
     "medium_risk_objects" := VNum (inject_Z medium_count);
     "total_objects" := VNum (inject_Z (Z.of_nat total));
     "recommendation" := VStr recommendation ]}.

(** The report for a non-empty list of scores. *)
Definition zone_report_of (scores : list Q) : gmap string pyval :=
  zone_report (count_scores (Qle_bool 80) scores)
              (count_scores (in_bucket 60 80) scores)
              (count_scores (in_bucket 40 60) scores)
              (round (max_score scores) 2)
              (length scores).

(** [r] is a hazard record returned by some call of
    [calculate_hazard_score]. *)
Definition produced (r : gmap string pyval) : Prop :=
  ∃ (bbox image_shape : list Q) (class_name : string),
    calculate_hazard_score bbox image_shape class_name = Ok r.

(** The value of [score] in [main.calculate_hazard_score] after line 100,
    before it is rounded. *)
Definition main_final_score (x1 y1 x2 y2 h w : Q) (class_name : option string)
    : Q :=
  Qmin (((x2 - x1) * (y2 - y1) / (h * w) * 700 + y2 / h * 30)
        * main.weight_of class_name) 100.

(** The dict [main.calculate_hazard_score] returns for a given [score]. *)
Definition main_record (score : Q) : gmap string pyval :=
  let '(hazard_level, estimated_distance) := main.classify score in
  {[ "score" := VNum (round score 2);
     "level" := VStr hazard_level;
     "estimated_distance" := VStr estimated_distance ]}.

(** * Running the model on the specification's scenarios *)

Example scenario_person :
  record_fields <$> calculate_hazard_score [0; 0; 100; 100] [1000; 1000; 3] "person"
  = Ok [Some (VNum 12); Some (VStr "LOW"); Some (VStr "8m+");
        Some (VStr "#00FF00"); Some (VStr "SAFE TO PROCEED"); Some (VNum 1.2)].
Proof. vm_compute. reflexivity. Qed.

Example scenario_car :
  record_fields <$> calculate_hazard_score [0; 900; 1000; 1000] [1000; 1000; 3] "Car"
  = Ok [Some (VNum 90); Some (VStr "CRITICAL"); Some (VStr "0-2m");
        Some (VStr "#FF0000"); Some (VStr "STOP IMMEDIATELY"); Some (VNum 0.9)].
Proof. vm_compute. reflexivity. Qed.

Example scenario_three_detections :
  zone_fields <$> calculate_zone_risk [detection 85; detection 62; detection 30] [1000; 1000; 3]
  = Ok [Some (VStr "CRITICAL"); Some (VNum 85); Some (VNum 1); Some (VNum 1);
        Some (VNum 0); Some (VNum 3);
        Some (VStr "STOP! 1 object(s) in critical zone (0-2m)")].
Proof. vm_compute. reflexivity. Qed.

Example scenario_empty_zone :
  (z ← calculate_zone_risk [] [1000; 1000; 3];
   msg ← generate_alert_message z;
   mret (z !! "overall_risk", z !! "max_hazard_score", msg))
  = Ok (Some (VStr "SAFE"), Some (VNum 0),
        "✓ SAFE: No objects detected in monitoring zones.").
Proof. vm_compute. reflexivity. Qed.

Example scenario_upper_case_class :
  multiplier_of "PeRSoN" = 1.2 ∧ multiplier_of "drone" = 1.0.
Proof. split; reflexivity. Qed.

Example scenario_kelvin_sign :
  lower ("TRUC" +:+ kelvin_sign) = "truck"
  ∧ multiplier_of ("truc" +:+ kelvin_sign) = 0.9
  ∧ main.weight_of (Some ("truc" +:+ kelvin_sign)) = 0.98.
Proof. repeat split; reflexivity. Qed.

Example scenario_alert :
  (z ← calculate_zone_risk [detection 85; detection 62; detection 30] [1000; 1000; 3];
   generate_alert_message z)
  = Ok "⚠️ CRITICAL ALERT: Object detected in immediate vicinity! STOP DUMPING!".
Proof. vm_compute. reflexivity. Qed.

(** * Arithmetic facts *)

Lemma Qle_bool_false (a q : Q) : Qle_bool a q = false ↔ q < a.
Proof.
  split; intros H.
  - apply Qnot_le_lt. intros Hle. apply Qle_bool_iff in Hle. congruence.
  - destruct (Qle_bool a q) eqn:E; [|done].
    apply Qle_bool_iff in E. exfalso. lra.
Qed.

Lemma round_half_even_mono (p q : Q) :
  p <= q → (round_half_even p ≤ round_half_even q)%Z.
Proof.
  intros Hpq. unfold round_half_even.
  pose proof (Qfloor_resp_le _ _ Hpq) as Hf.
  pose proof (Qfloor_le p) as Hp1. pose proof (Qlt_floor p) as Hp2.
  pose proof (Qfloor_le q) as Hq1. pose proof (Qlt_floor q) as Hq2.
  destruct (Z.eq_dec (Qfloor p) (Qfloor q)) as [Heq|Hne].
  - rewrite <- Heq in *. set (f := Qfloor p) in *.
    destruct (Qcompare_spec (p - inject_Z f) (1 # 2)),
             (Qcompare_spec (q - inject_Z f) (1 # 2));
      try lia; try (exfalso; lra); destruct (Z.even f); lia.
  - assert (Qfloor p + 1 ≤ Qfloor q)%Z by lia.
    destruct (Qcompare (p - _) _), (Qcompare (q - _) _);
      repeat destruct (Z.even _); lia.
Qed.

Lemma round_half_even_proper (p q : Q) :
  p == q → round_half_even p = round_half_even q.
Proof.
  intros Hpq. apply Z.le_antisymm; apply round_half_even_mono; lra.
Qed.

Lemma round_half_even_inject_Z (n : Z) : round_half_even (inject_Z n) = n.
Proof.
  unfold round_half_even. rewrite Qfloor_Z.
  assert (Qcompare (inject_Z n - inject_Z n) (1 # 2) = Lt) as ->; [|done].
  apply (proj1 (Qlt_alt _ _)). lra.
Qed.

Lemma round_2_unfold (x : Q) :
  round x 2 == inject_Z (round_half_even (x * 100)) / 100.
Proof. unfold round. change (10 ^ 2) with 100. apply Qred_correct. Qed.

Lemma round_2_mono (x y : Q) : x <= y → round x 2 <= round y 2.
Proof.
  intros Hxy. rewrite !round_2_unfold.
  assert (round_half_even (x * 100) ≤ round_half_even (y * 100))%Z as Hz
    by (apply round_half_even_mono; lra).
  rewrite Zle_Qle in Hz. unfold Qdiv. apply Qmult_le_compat_r; [exact Hz | done].
Qed.

Lemma round_2_proper (x y : Q) : x == y → round x 2 = round y 2.
Proof.
  intros Hxy. unfold round. apply Qred_complete.
  rewrite (round_half_even_proper (x * 10 ^ 2) (y * 10 ^ 2)); [reflexivity|].
  by rewrite Hxy.
Qed.

Lemma round_2_inject_Z (n : Z) : round (inject_Z n) 2 == inject_Z n.
Proof.
  rewrite round_2_unfold.
  rewrite (round_half_even_proper _ (inject_Z (n * 100))).
  - rewrite round_half_even_inject_Z, inject_Z_mult.
    change (inject_Z 100) with 100. field.
  - rewrite inject_Z_mult. reflexivity.
Qed.

Lemma round_2_bounds (lo hi : Z) (q : Q) :
  inject_Z lo <= q → q <= inject_Z hi →
  inject_Z lo <= round q 2 ∧ round q 2 <= inject_Z hi.
Proof.
  intros Hlo Hhi. split.
  - rewrite <- (round_2_inject_Z lo). by apply round_2_mono.
  - rewrite <- (round_2_inject_Z hi). by apply round_2_mono.
Qed.

Lemma round_2_upper (n : Z) (q : Q) : q <= inject_Z n → round q 2 <= inject_Z n.
Proof. intros H. rewrite <- (round_2_inject_Z n). by apply round_2_mono. Qed.

Lemma round_2_lower (n : Z) (q : Q) : inject_Z n <= q → inject_Z n <= round q 2.
Proof. intros H. rewrite <- (round_2_inject_Z n). by apply round_2_mono. Qed.

(** Rounding to the nearest integer moves a number by at most one half. *)
Lemma round_half_even_error (q : Q) :
  - (1 # 2) <= inject_Z (round_half_even q) - q
  ∧ inject_Z (round_half_even q) - q <= 1 # 2.
Proof.
  unfold round_half_even.
  pose proof (Qfloor_le q) as H1. pose proof (Qlt_floor q) as H2.
  rewrite inject_Z_plus in H2. change (inject_Z 1) with 1 in H2.
  set (f := Qfloor q) in *.
  destruct (Qcompare_spec (q - inject_Z f) (1 # 2)) as [E|E|E];
    [destruct (Z.even f)| |];
    rewrite ?inject_Z_plus; change (inject_Z 1) with 1; split; lra.
Qed.

Lemma round_2_error (x : Q) :
  - (1 # 200) <= round x 2 - x ∧ round x 2 - x <= 1 # 200.
Proof.
  rewrite round_2_unfold.
  destruct (round_half_even_error (x * 100)) as [H1 H2].
  set (n := inject_Z (round_half_even (x * 100))) in *.
  unfold Qdiv. change (/ 100) with (1 # 100).
  split; lra.
Qed.

(** Rounding to two decimals moves a number by less than a hundredth. *)
Lemma round_2_near (x y : Q) : x == y → Qabs (round x 2 - y) < 1 # 100.
Proof.
  intros E. apply Qabs_Qlt_condition.
  destruct (round_2_error x) as [H1 H2]. split; lra.
Qed.

(** * Facts about [lower] *)

Lemma lower_cases (c : Ascii.ascii) (s : string) : lower_head c s.
Proof.
  destruct (ascii_dec c "226") as [->|H1].
  - destruct s as [|c1 s]; [by apply lower_head_other|].
    destruct (ascii_dec c1 "132") as [->|H2].
    + destruct s as [|c2 s]; [by apply lower_head_other|].
      destruct (ascii_dec c2 "170") as [->|H3].
      * by eapply lower_head_kelvin.
      * apply lower_head_other; [intros _ s''; congruence|done|].
        destruct c2 as [[] [] [] [] [] [] [] []]; first [congruence|reflexivity].
    + apply lower_head_other; [intros _ s''; congruence|done|].
      destruct c1 as [[] [] [] [] [] [] [] []]; first [congruence|reflexivity].
  - destruct (ascii_dec c "196") as [->|H2].
    + destruct s as [|c1 s]; [by apply lower_head_other|].
      destruct (ascii_dec c1 "176") as [->|H3].
      * by eapply lower_head_dotted_I.
      * apply lower_head_other; [done|intros _ s''; congruence|].
        destruct c1 as [[] [] [] [] [] [] [] []]; first [congruence|reflexivity].
    + apply lower_head_other; [done|done|].
      destruct c as [[] [] [] [] [] [] [] []]; first [congruence|reflexivity].
Qed.

Lemma lower_ascii_idemp (a : Ascii.ascii) :
  lower_ascii (lower_ascii a) = lower_ascii a.
Proof. by destruct a as [[] [] [] [] [] [] [] []]. Qed.

(** [lower_ascii] changes ASCII letters only. *)
Lemma lower_ascii_high (c : Ascii.ascii) :
  (nat_of_ascii (lower_ascii c) < 128)%nat ∨ lower_ascii c = c.
Proof.
  destruct c as [[] [] [] [] [] [] [] []];
    first [by right | left; vm_compute; lia].
Qed.

Lemma lower_ascii_inv (c x : Ascii.ascii) :
  (128 <= nat_of_ascii x)%nat → lower_ascii c = x → c = x.
Proof.
  intros Hx <-. destruct (lower_ascii_high c) as [H|H]; [lia|done].
Qed.

(** Only the empty string lowercases to the empty string. *)
Lemma lower_nil_inv (s : string) : lower s = "" → s = "".
Proof.
  destruct s as [|c s]; [done|].
  destruct (lower_cases c s) as [s'' _ _ ->|s'' _ _ ->|_ _ ->]; done.
Qed.

(** A non-ASCII byte at the head of [lower s] is the head of [s]. *)
Lemma lower_cons_inv (s t : string) (x : Ascii.ascii) :
  (128 <= nat_of_ascii x)%nat → lower s = String x t →
  ∃ s', s = String x s' ∧ lower s' = t.
Proof.
  intros Hx. destruct s as [|c s]; [done|].
  destruct (lower_cases c s) as [s'' _ _ ->|s'' _ _ ->|Hk Hi ->];
    intros [= <- <-].
  - vm_compute in Hx. lia.
  - vm_compute in Hx. lia.
  - assert (c = lower_ascii c) as Hc by (by apply lower_ascii_inv).
    exists s. by rewrite <- Hc.
Qed.

Lemma lower_idemp_upto (n : nat) (s : string) :
  (String.length s <= n)%nat → lower (lower s) = lower s.
Proof.
  revert s. induction n as [|n IH]; intros s Hn.
  { destruct s; [done|cbn in Hn; lia]. }
  destruct s as [|c s]; [done|].
  destruct (lower_cases c s) as [s'' -> -> ->|s'' -> -> ->|Hk Hi ->].
  - cbn in Hn. change (lower (String "k" (lower s'')))
      with (String "k" (lower (lower s''))). rewrite IH; [done|lia].
  - cbn in Hn.
    change (lower (String "i" (String "204" (String "135" (lower s'')))))
      with (String "i" (String "204" (String "135" (lower (lower s''))))).
    rewrite IH; [done|lia].
  - cbn in Hn.
    destruct (lower_cases (lower_ascii c) (lower s))
      as [t Hc Ht _|t Hc Ht _|_ _ ->].
    + apply lower_ascii_inv in Hc; [|vm_compute; lia]. exfalso.
      apply lower_cons_inv in Ht as (s1 & -> & Ht); [|vm_compute; lia].
      apply lower_cons_inv in Ht as (s2 & -> & _); [|vm_compute; lia].
      by eapply Hk.
    + apply lower_ascii_inv in Hc; [|vm_compute; lia]. exfalso.
      apply lower_cons_inv in Ht as (s1 & -> & _); [|vm_compute; lia].
      by eapply Hi.
    + rewrite lower_ascii_idemp, IH; [done|lia].
Qed.

Lemma lower_idemp (s : string) : lower (lower s) = lower s.
Proof. by apply (lower_idemp_upto (String.length s)). Qed.

Lemma lower_ascii_case_variant (a k : Ascii.ascii) :
  (97 <= nat_of_ascii k <= 122)%nat →
  a = k ∨ (nat_of_ascii a + 32)%nat = nat_of_ascii k →
  lower_ascii a = k ∧ a ≠ "226"%char ∧ a ≠ "196"%char.
Proof.
  intros Hk [->|Ha].
  - split; [|split; intros ->; vm_compute in Hk; lia].
    unfold lower_ascii.
    destruct (Nat.leb_spec 65 (nat_of_ascii k)),
             (Nat.leb_spec (nat_of_ascii k) 90);
      cbn; first [done|lia].
  - split; [|split; intros ->; set (n := nat_of_ascii k) in *; clearbody n;
              vm_compute in Ha; lia].
    unfold lower_ascii.
    destruct (Nat.leb_spec 65 (nat_of_ascii a)),
             (Nat.leb_spec (nat_of_ascii a) 90);
      cbn; try lia.
    rewrite Ha. apply ascii_nat_embedding.
Qed.

(** A name that differs from a key of lowercase letters in letter case only
    lowercases to that key. *)
Lemma lower_case_variant (name key : string) :
  case_variant name key → lower name = key.
Proof.
  revert key. induction name as [|a name IH]; intros [|k key]; try done.
  intros (Hk & Ha & Hname).
  destruct (lower_ascii_case_variant a k Hk Ha) as (Hl & H1 & H2).
  destruct (lower_cases a name) as [? ? _ _|? ? _ _|_ _ ->]; [done|done|].
  by rewrite Hl, (IH key).
Qed.

(** * Facts about the model *)

Lemma truediv_ok (a b : Q) : ¬ b == 0 → truediv a b = Ok (a / b).
Proof.
  intros Hb. unfold truediv.
  destruct (Qeq_bool b 0) eqn:E; [|done].
  by apply Qeq_bool_iff in E.
Qed.

Lemma truediv_zero (a b : Q) : b == 0 → truediv a b = Raise ZeroDivisionError.
Proof.
  intros Hb. unfold truediv. apply Qeq_bool_iff in Hb. by rewrite Hb.
Qed.

(** With four coordinates, at least two image dimensions and a non-zero image
    area, the function returns the record of [final_score_of]. *)
Lemma calculate_hazard_score_ok (x1 y1 x2 y2 h w : Q) (rest : list Q) (c : string) :
  ¬ h * w == 0 →
  calculate_hazard_score [x1; y1; x2; y2] (h :: w :: rest) c
  = Ok (hazard_record (final_score_of x1 y1 x2 y2 h w c) (multiplier_of c)).
Proof.
  intros Harea.
  assert (¬ h == 0) as Hh by (intros E; apply Harea; rewrite E; ring).
  unfold calculate_hazard_score, unpack4, unpack2.
  change (take 2 (h :: w :: rest)) with [h; w].
  cbn [mbind result_bind].
  rewrite (truediv_ok _ _ Harea). cbn [mbind result_bind].
  rewrite (truediv_ok _ _ Hh). cbn [mbind result_bind].
  unfold hazard_record, final_score_of, multiplier_of.
  by destruct (classify _) as [[[l d] col] a].
Qed.

Lemma hazard_record_lookup (final m : Q) :
  hazard_record final m !! "score" = Some (VNum (round final 2))
  ∧ hazard_record final m !! "level" = Some (VStr (classify final).1.1.1)
  ∧ hazard_record final m !! "estimated_distance" = Some (VStr (classify final).1.1.2)
  ∧ hazard_record final m !! "priority" = Some (VNum m)
  ∧ hazard_record final m !! "hazard_score" = None.
Proof.
  unfold hazard_record. destruct (classify final) as [[[l d] col] a].
  repeat split.
Qed.

(** The dict literal of line 38 is the table of the specification. *)
Lemma class_multipliers_get (key : string) :
  dict_get class_multipliers key 1.0 = spec_multiplier key.
Proof.
  unfold dict_get, class_multipliers, spec_multiplier.
  repeat (rewrite lookup_insert; case_decide; [subst key; reflexivity|]).
  rewrite lookup_singleton. case_decide; [subst key; reflexivity|].
  repeat (rewrite bool_decide_eq_false_2;
          [|first [congruence
                  |intros Hin;
                   repeat (apply elem_of_cons in Hin as [Hin|Hin]; [congruence|]);
                   by apply elem_of_nil in Hin]]).
  reflexivity.
Qed.

Lemma multiplier_of_spec (c : string) :
  multiplier_of c = spec_multiplier (lower c).
Proof. apply class_multipliers_get. Qed.

Lemma multiplier_of_range (c : string) :
  0.9 <= multiplier_of c ∧ multiplier_of c <= 1.3.
Proof.
  rewrite multiplier_of_spec. unfold spec_multiplier.
  repeat case_bool_decide; split; done.
Qed.

Lemma Qdiv_nonneg (a b : Q) : 0 <= a → 0 < b → 0 <= a / b.
Proof. intros Ha Hb. apply Qle_shift_div_l; [done|]. lra. Qed.

Lemma Qdiv_le_compat_r (a b c : Q) : a <= b → 0 < c → a / c <= b / c.
Proof.
  intros Hab Hc. unfold Qdiv. apply Qmult_le_compat_r; [done|].
  apply Qlt_le_weak. by apply Qinv_lt_0_compat.
Qed.

Lemma positive_height (h w y : Q) : 0 <= y → y <= h → 0 < h * w → 0 < h.
Proof.
  intros Hy Hyh Hhw.
  destruct (Qlt_le_dec 0 h) as [|Hle]; [done|].
  assert (h == 0) as E by lra. rewrite E in Hhw. lra.
Qed.

(** [final_score] is monotone in the signed box area when the image area is
    positive. *)
Lemma final_score_mono (a a' y2 h w m : Q) :
  0 < h * w → 0 <= m → a <= a' →
  Qmin (Qmin (a / (h * w) * 700 + y2 / h * 30) 100 * m) 100
  <= Qmin (Qmin (a' / (h * w) * 700 + y2 / h * 30) 100 * m) 100.
Proof.
  intros Harea Hm Ha.
  apply Q.min_le_compat_r, Qmult_le_compat_r; [|done].
  apply Q.min_le_compat_r.
  pose proof (Qdiv_le_compat_r _ _ _ Ha Harea). lra.
Qed.

Lemma final_score_bounds (x1 y1 x2 y2 h w : Q) (c : string) :
  0 <= x1 → x1 <= x2 → x2 <= w → 0 <= y1 → y1 <= y2 → y2 <= h → 0 < h * w →
  0 <= final_score_of x1 y1 x2 y2 h w c ∧ final_score_of x1 y1 x2 y2 h w c <= 100.
Proof.
  intros Hx1 Hx12 Hx2 Hy1 Hy12 Hy2 Harea. unfold final_score_of.
  split; [|apply Q.le_min_r].
  assert (0 < h) as Hh by (apply (positive_height h w y2); lra).
  destruct (multiplier_of_range c) as [Hm _].
  apply Q.min_glb; [|done].
  apply Qmult_le_0_compat; [|lra].
  apply Q.min_glb; [|done].
  assert (0 <= (x2 - x1) * (y2 - y1) / (h * w))
    by (apply Qdiv_nonneg; [apply Qmult_le_0_compat; lra|done]).
  assert (0 <= y2 / h) by (apply Qdiv_nonneg; lra).
  lra.
Qed.

(** * Facts about the scorer *)

(** The class name reaches the result only through the multiplier. *)
Lemma calculate_hazard_score_same_multiplier
    (bbox image_shape : list Q) (c c' : string) :
  multiplier_of c = multiplier_of c' →
  calculate_hazard_score bbox image_shape c
  = calculate_hazard_score bbox image_shape c'.
Proof.
  intros Hm. unfold calculate_hazard_score.
  change (dict_get class_multipliers (lower c) 1.0) with (multiplier_of c).
  change (dict_get class_multipliers (lower c') 1.0) with (multiplier_of c').
  by rewrite Hm.
Qed.

Lemma calculate_hazard_score_priority
    (bbox image_shape : list Q) (c : string) (r : gmap string pyval) :
  calculate_hazard_score bbox image_shape c = Ok r →
  r !! "priority" = Some (VNum (multiplier_of c)).
Proof.
  unfold calculate_hazard_score.
  destruct (unpack4 bbox) as [[[[x1 y1] x2] y2]|];
    cbn [mbind result_bind]; [|intros [=]].
  destruct (unpack2 _) as [[h w]|]; cbn [mbind result_bind]; [|intros [=]].
  destruct (truediv (_ * _) _); cbn [mbind result_bind]; [|intros [=]].
  destruct (truediv y2 h); cbn [mbind result_bind]; [|intros [=]].
  destruct (classify _) as [[[l d] col] act].
  intros [= <-]. reflexivity.
Qed.

(** The level and the distance bucket follow the thresholds on the value of
    [final_score] before it is rounded. *)
Lemma classify_thresholds (final : Q) :
  ((classify final).1.1.1 = "CRITICAL" ↔ 80 <= final)
  ∧ ((classify final).1.1.1 = "HIGH" ↔ 60 <= final ∧ final < 80)
  ∧ ((classify final).1.1.1 = "MEDIUM" ↔ 40 <= final ∧ final < 60)
  ∧ ((classify final).1.1.1 = "LOW" ↔ final < 40)
  ∧ ((classify final).1.1.2 = "0-2m" ↔ (classify final).1.1.1 = "CRITICAL")
  ∧ ((classify final).1.1.2 = "2-5m" ↔ (classify final).1.1.1 = "HIGH")
  ∧ ((classify final).1.1.2 = "5-8m" ↔ (classify final).1.1.1 = "MEDIUM")
  ∧ ((classify final).1.1.2 = "8m+" ↔ (classify final).1.1.1 = "LOW").
Proof.
  unfold classify.
  destruct (Qle_bool 80 final) eqn:E80;
    [|destruct (Qle_bool 60 final) eqn:E60;
      [|destruct (Qle_bool 40 final) eqn:E40]];
    rewrite ?Qle_bool_iff, ?Qle_bool_false in *; cbn [fst snd];
    repeat split; try done; intros; try lra; exfalso; lra.
Qed.

Lemma score_of_ok (x1 y1 x2 y2 h w : Q) (rest : list Q) (c : string) :
  ¬ h * w == 0 →
  score_of [x1; y1; x2; y2] (h :: w :: rest) c
  = Ok (Some (VNum (round (final_score_of x1 y1 x2 y2 h w c) 2))).
Proof.
  intros Harea. unfold score_of.
  rewrite calculate_hazard_score_ok by done.
  cbn [fmap result_fmap]. f_equal. apply hazard_record_lookup.
Qed.

(** Two boxes with the same bottom edge, in the same image and of the same
    class: the one with the smaller signed area has the smaller score. *)
Lemma score_mono_in_area (x1 y1 x2 x1' y1' x2' y2 h w : Q) (c : string) :
  0 < h * w →
  (x2 - x1) * (y2 - y1) <= (x2' - x1') * (y2 - y1') →
  round (final_score_of x1 y1 x2 y2 h w c) 2
  <= round (final_score_of x1' y1' x2' y2 h w c) 2.
Proof.
  intros Harea Ha. apply round_2_mono. unfold final_score_of.
  apply final_score_mono; [done| |done].
  destruct (multiplier_of_range c). lra.
Qed.

Lemma level_of_ok (x1 y1 x2 y2 h w : Q) (rest : list Q) (c : string) :
  ¬ h * w == 0 →
  level_of [x1; y1; x2; y2] (h :: w :: rest) c
  = Ok (Some (VStr (classify (final_score_of x1 y1 x2 y2 h w c)).1.1.1)).
Proof.
  intros Harea. unfold level_of.
  rewrite calculate_hazard_score_ok by done.
  cbn [fmap result_fmap]. f_equal. apply hazard_record_lookup.
Qed.

(** The unrounded score of a zero-area box inside the image comes from the
    bottom edge alone and stays below the MEDIUM threshold. *)
Lemma degenerate_final_score (x1 y1 x2 y2 h w : Q) (c : string) :
  0 < h * w → 0 <= y2 → y2 <= h →
  (x2 - x1) * (y2 - y1) == 0 →
  0 <= final_score_of x1 y1 x2 y2 h w c
  ∧ final_score_of x1 y1 x2 y2 h w c <= 39
  ∧ (y2 == 0 → final_score_of x1 y1 x2 y2 h w c <= 0).
Proof.
  intros Harea Hy0 Hyh Hzero.
  assert (0 < h) as Hh by (apply (positive_height h w y2); lra).
  destruct (multiplier_of_range c) as [Hm1 Hm2].
  unfold final_score_of. rewrite Hzero.
  assert (0 / (h * w) == 0) as -> by (unfold Qdiv; ring).
  assert (0 <= y2 / h) as Hb0 by (apply Qdiv_nonneg; lra).
  assert (y2 / h <= 1) as Hb1 by (apply Qle_shift_div_r; lra).
  assert (0 <= Qmin (0 * 700 + y2 / h * 30) 100) as Ht0
    by (apply Q.min_glb; lra).
  pose proof (Q.le_min_l (0 * 700 + y2 / h * 30) 100) as Ht1.
  set (t := Qmin (0 * 700 + y2 / h * 30) 100) in *.
  set (m := multiplier_of c) in *.
  split; [|split].
  - apply Q.min_glb; [nra|done].
  - apply Qle_trans with (t * m); [apply Q.le_min_l|]. nra.
  - intros Hy2. apply Qle_trans with (t * m); [apply Q.le_min_l|].
    assert (y2 / h == 0) as E by (unfold Qdiv; rewrite Hy2; ring).
    rewrite E in Ht1. nra.
Qed.

(** For a zero-area box inside the image neither [min] cuts anything off. *)
Lemma degenerate_final_score_eq (x1 y1 x2 y2 h w : Q) (c : string) :
  0 < h * w → 0 <= y2 → y2 <= h →
  (x2 - x1) * (y2 - y1) == 0 →
  final_score_of x1 y1 x2 y2 h w c == y2 / h * 30 * multiplier_of c.
Proof.
  intros Harea Hy0 Hyh Hzero.
  assert (0 < h) as Hh by (apply (positive_height h w y2); lra).
  destruct (multiplier_of_range c) as [Hm1 Hm2].
  assert (0 <= y2 / h) as Hb0 by (apply Qdiv_nonneg; lra).
  assert (y2 / h <= 1) as Hb1 by (apply Qle_shift_div_r; lra).
  unfold final_score_of. rewrite Hzero.
  assert (0 / (h * w) * 700 + y2 / h * 30 == y2 / h * 30) as ->
    by (unfold Qdiv; ring).
  set (b := y2 / h) in *. set (m := multiplier_of c) in *.
  rewrite (Q.min_l (b * 30) 100) by lra.
  rewrite Q.min_l by nra. reflexivity.
Qed.

(** * The aggregator on detections that carry a numeric [hazard_score] *)

Section zone_risk.

Implicit Types (d : gmap string pyval) (ds : list (gmap string pyval)).
Implicit Types (s : Q) (ss : list Q).

Lemma hazard_of_score d s : has_hazard_score d s → hazard_of d = Ok (VNum s).
Proof. intros Hd. unfold hazard_of, getitem. by rewrite Hd. Qed.

Lemma is_critical_score d s :
  has_hazard_score d s → is_critical d = Ok (Qle_bool 80 s).
Proof. intros Hd. unfold is_critical. by rewrite (hazard_of_score d s). Qed.

Lemma in_range_score lo hi d s :
  has_hazard_score d s → in_range lo hi d = Ok (in_bucket lo hi s).
Proof.
  intros Hd. unfold in_range, in_bucket. rewrite (hazard_of_score d s Hd).
  cbn. by destruct (Qle_bool lo s).
Qed.

Lemma count_where_scores (cond : gmap string pyval → result bool)
    (p : Q → bool) ds ss :
  (∀ d s, has_hazard_score d s → cond d = Ok (p s)) →
  Forall2 has_hazard_score ds ss →
  count_where cond ds = Ok (count_scores p ss).
Proof.
  intros Hcond. induction 1 as [|d s ds ss Hd _ IH]; [done|].
  cbn [count_where count_scores]. rewrite (Hcond d s Hd), IH. cbn.
  by destruct (p s).
Qed.

Lemma max_from_scores best ds ss :
  Forall2 has_hazard_score ds ss →
  max_from hazard_of best ds = Ok (running_max best ss).
Proof.
  intros H. revert best. induction H as [|d s ds ss Hd _ IH]; intros best.
  - done.
  - cbn [max_from]. rewrite (hazard_of_score d s Hd). cbn. apply IH.
Qed.

Lemma py_max_scores ds ss :
  ds ≠ [] → Forall2 has_hazard_score ds ss →
  py_max hazard_of ds = Ok (max_score ss).
Proof.
  intros Hne H. destruct H as [|d s ds ss Hd H]; [done|].
  unfold py_max. rewrite (hazard_of_score d s Hd). cbn.
  by apply max_from_scores.
Qed.

(** The call succeeds and returns the report of the scores. *)
Lemma calculate_zone_risk_ok ds ss (image_shape : list Q) :
  ds ≠ [] → Forall2 has_hazard_score ds ss →
  calculate_zone_risk ds image_shape = Ok (zone_report_of ss).
Proof.
  intros Hne H. unfold calculate_zone_risk.
  destruct ds as [|d ds']; [done|].
  rewrite (count_where_scores is_critical (Qle_bool 80) _ ss);
    [|by apply is_critical_score|done].
  rewrite (count_where_scores (in_range 60 80) (in_bucket 60 80) _ ss);
    [|by apply in_range_score|done].
  rewrite (count_where_scores (in_range 40 60) (in_bucket 40 60) _ ss);
    [|by apply in_range_score|done].
  rewrite (py_max_scores _ ss) by done.
  cbn [mbind result_bind].
  unfold zone_report_of, zone_report.
  rewrite (Forall2_length _ _ _ H).
  by repeat case_match.
Qed.

End zone_risk.

(** * Counting and maximum over the scores *)

Lemma count_scores_nonneg (p : Q → bool) (ss : list Q) :
  (0 ≤ count_scores p ss)%Z.
Proof. induction ss as [|s ss IH]; cbn; [done|]. destruct (p s); lia. Qed.

Lemma count_scores_pos (p : Q → bool) (ss : list Q) :
  (0 < count_scores p ss)%Z ↔ ∃ s, s ∈ ss ∧ p s = true.
Proof.
  induction ss as [|s ss IH]; cbn.
  - split; [lia|]. intros (s & Hs & _). by apply elem_of_nil in Hs.
  - pose proof (count_scores_nonneg p ss).
    destruct (p s) eqn:E.
    + split; [|lia]. intros _. exists s. split; [left|done].
    + rewrite IH. split.
      * intros (s' & Hs' & Hp). exists s'. split; [by right|done].
      * intros (s' & Hs' & Hp). apply elem_of_cons in Hs' as [->|Hs'];
          [congruence|]. by exists s'.
Qed.

Lemma count_scores_Permutation (p : Q → bool) (ss ss' : list Q) :
  ss ≡ₚ ss' → count_scores p ss = count_scores p ss'.
Proof.
  induction 1 as [|s ss ss' _ IH|s s' ss|ss ss' ss'' _ IH1 _ IH2]; cbn.
  - done.
  - by rewrite IH.
  - by destruct (p s), (p s').
  - by rewrite IH1.
Qed.

Lemma running_max_ge (best : Q) (ss : list Q) :
  best <= running_max best ss ∧ ∀ s, s ∈ ss → s <= running_max best ss.
Proof.
  revert best. induction ss as [|q ss IH]; intros best.
  - split; [apply Qle_refl|]. intros s Hs. by apply elem_of_nil in Hs.
  - change (running_max best (q :: ss))
      with (running_max (if Qle_bool q best then best else q) ss).
    destruct (IH (if Qle_bool q best then best else q)) as [IH1 IH2].
    assert (best <= (if Qle_bool q best then best else q)
            ∧ q <= (if Qle_bool q best then best else q)) as [Hb Hq].
    { destruct (Qle_bool q best) eqn:E.
      - apply Qle_bool_iff in E. split; lra.
      - apply Qle_bool_false in E. split; lra. }
    split; [lra|].
    intros s Hs. apply elem_of_cons in Hs as [->|Hs]; [lra|by apply IH2].
Qed.

Lemma running_max_elem (best : Q) (ss : list Q) :
  running_max best ss ∈ best :: ss.
Proof.
  revert best. induction ss as [|q ss IH]; intros best.
  - left.
  - change (running_max best (q :: ss))
      with (running_max (if Qle_bool q best then best else q) ss).
    specialize (IH (if Qle_bool q best then best else q)).
    apply elem_of_cons in IH as [->|IH].
    + destruct (Qle_bool q best); [left|right; left].
    + by do 2 right.
Qed.

(** [max_score] of a non-empty list is one of its elements and bounds them
    all. *)
Lemma max_score_spec (ss : list Q) :
  ss ≠ [] → max_score ss ∈ ss ∧ ∀ s, s ∈ ss → s <= max_score ss.
Proof.
  destruct ss as [|s ss]; [done|]. intros _. cbn. split.
  - apply running_max_elem.
  - destruct (running_max_ge s ss) as [H1 H2].
    intros q Hq. apply elem_of_cons in Hq as [->|Hq]; [done|by apply H2].
Qed.

Lemma max_score_Permutation (ss ss' : list Q) :
  ss ≡ₚ ss' → max_score ss == max_score ss'.
Proof.
  intros Hp. destruct (decide (ss = [])) as [->|Hne].
  - assert (ss' = []) as ->
      by (apply Permutation_length in Hp; by destruct ss').
    reflexivity.
  - assert (ss' ≠ []) as Hne'
      by (intros ->; apply Permutation_length in Hp; by destruct ss).
    destruct (max_score_spec ss Hne) as [Hin Hub].
    destruct (max_score_spec ss' Hne') as [Hin' Hub'].
    apply Qle_antisym.
    + apply Hub'. by rewrite <- Hp.
    + apply Hub. by rewrite Hp.
Qed.

Lemma zone_report_of_Permutation (ss ss' : list Q) :
  ss ≡ₚ ss' → zone_report_of ss = zone_report_of ss'.
Proof.
  intros Hp. unfold zone_report_of.
  rewrite !(count_scores_Permutation _ ss ss' Hp).
  rewrite (round_2_proper _ _ (max_score_Permutation ss ss' Hp)).
  by rewrite (Permutation_length Hp).
Qed.

Lemma zone_report_lookup (nc nh nm : Z) (mx : Q) (n : nat) :
  zone_report nc nh nm mx n !! "overall_risk"
  = Some (VStr (if (0 <? nc)%Z then "CRITICAL"
                else if (0 <? nh)%Z then "HIGH"
                else if (0 <? nm)%Z then "MEDIUM" else "LOW"))
  ∧ zone_report nc nh nm mx n !! "max_hazard_score" = Some (VNum mx)
  ∧ zone_report nc nh nm mx n !! "critical_objects" = Some (VNum (inject_Z nc))
  ∧ zone_report nc nh nm mx n !! "high_risk_objects" = Some (VNum (inject_Z nh))
  ∧ zone_report nc nh nm mx n !! "medium_risk_objects" = Some (VNum (inject_Z nm))
  ∧ zone_report nc nh nm mx n !! "total_objects"
    = Some (VNum (inject_Z (Z.of_nat n))).
Proof.
  unfold zone_report.
  destruct (0 <? nc)%Z; [|destruct (0 <? nh)%Z; [|destruct (0 <? nm)%Z]];
    repeat split.
Qed.

Lemma Forall2_score_value (ds : list (gmap string pyval)) :
  Forall (λ d, ∃ s, has_hazard_score d s) ds →
  Forall2 has_hazard_score ds (score_value <$> ds).
Proof.
  induction 1 as [|d ds [s Hd] _ IH]; cbn; constructor; [|done].
  unfold has_hazard_score, score_value in *. by rewrite Hd.
Qed.

(** Every record [calculate_hazard_score] returns has the six keys of line 80;
    [hazard_score] is not one of them. *)
Lemma produced_record (r : gmap string pyval) :
  produced r → ∃ final m : Q, r = hazard_record final m.
Proof.
  intros (bbox & image_shape & c & Hr). revert Hr.
  unfold calculate_hazard_score.
  destruct (unpack4 bbox) as [[[[x1 y1] x2] y2]|];
    cbn [mbind result_bind]; [|intros [=]].
  destruct (unpack2 _) as [[h w]|]; cbn [mbind result_bind]; [|intros [=]].
  destruct (truediv (_ * _) _) as [size_ratio|];
    cbn [mbind result_bind]; [|intros [=]].
  destruct (truediv y2 h) as [bottom_position|];
    cbn [mbind result_bind]; [|intros [=]].
  destruct (classify _) as [[[l d] col] act] eqn:E.
  cbn [mret result_ret]. intros [= <-].
  exists (Qmin (Qmin (size_ratio * 700 + bottom_position * 30) 100
                * multiplier_of c) 100), (multiplier_of c).
  unfold hazard_record, multiplier_of. by rewrite E.
Qed.

(** The same holds for every record the scorer returns. *)
Lemma zone_risk_raises_on_produced_record
    (r : gmap string pyval) (rest : list (gmap string pyval))
    (image_shape : list Q) :
  produced r →
  calculate_zone_risk (r :: rest) image_shape = Raise (KeyError "hazard_score").
Proof.
  intros (final & m & ->)%produced_record.
  assert (is_critical (hazard_record final m) = Raise (KeyError "hazard_score"))
    as Hkey.
  { unfold is_critical, hazard_of, getitem.
    by destruct (hazard_record_lookup final m) as (_ & _ & _ & _ & ->). }
  unfold calculate_zone_risk. cbn [count_where]. by rewrite Hkey.
Qed.

(** A dict that carries a produced record's [score] under [hazard_score]
    carries a number there. *)
Lemma detections_of_records (ds records : list (gmap string pyval)) :
  Forall produced records →
  Forall2 (λ d r, d !! "hazard_score" = r !! "score") ds records →
  Forall2 has_hazard_score ds (record_score <$> records).
Proof.
  intros Hprod Hds. induction Hds as [|d r ds rs Hdr _ IH]; [constructor|].
  apply Forall_cons in Hprod as [Hr Hrs].
  cbn. constructor; [|by apply IH].
  apply produced_record in Hr as (final & m & ->).
  unfold has_hazard_score, record_score. rewrite Hdr.
  by destruct (hazard_record_lookup final m) as (-> & _).
Qed.

(** A test [(0 <? count) = b] that is known to be equivalent to a
    proposition settles that proposition; an equivalence between an equality
    of level names and such propositions is then decided. *)
Local Ltac bucket_fact :=
  match goal with
  | H : true = true ↔ _ |- _ => apply proj1 in H; specialize (H eq_refl)
  | H : false = true ↔ ?P |- _ =>
      assert (¬ P) by (intros HP; apply H in HP; discriminate HP); clear H
  end.

Local Ltac bucket_iff :=
  split;
  [intros E; first [discriminate E | tauto]
  |intros HP; first [reflexivity | exfalso; tauto]].

(** * The properties stated by the specification *)

(** ** C1 *)

(** C1. For every collection of detection records passed to
    [calculate_zone_risk] (each carrying a number under [hazard_score]):
    [overall_risk] is SAFE exactly when the collection is empty, and then
    [max_hazard_score] is 0; for a non-empty collection [overall_risk] is the
    first of CRITICAL, HIGH, MEDIUM, LOW whose bucket (score >= 80,
    60 <= score < 80, 40 <= score < 60, score < 40) holds at least one record,
    and it is LOW exactly when no score reaches 40. *)
Theorem overall_risk_highest_nonempty_bucket
    (detections : list (gmap string pyval)) (scores : list Q)
    (image_shape : list Q) :
  Forall2 has_hazard_score detections scores →
  ∃ (r : gmap string pyval) (risk : string),
    calculate_zone_risk detections image_shape = Ok r
    ∧ r !! "overall_risk" = Some (VStr risk)
    ∧ (risk = "SAFE" ↔ detections = [])
    ∧ (detections = [] → r !! "max_hazard_score" = Some (VNum 0))
    ∧ (detections ≠ [] →
       let critical := ∃ s, s ∈ scores ∧ 80 <= s in
       let high := ∃ s, s ∈ scores ∧ 60 <= s ∧ s < 80 in
       let medium := ∃ s, s ∈ scores ∧ 40 <= s ∧ s < 60 in
       let low := ∃ s, s ∈ scores ∧ s < 40 in
       (risk = "CRITICAL" ↔ critical)
       ∧ (risk = "HIGH" ↔ ¬ critical ∧ high)
       ∧ (risk = "MEDIUM" ↔ ¬ critical ∧ ¬ high ∧ medium)
       ∧ (risk = "LOW" ↔ ¬ critical ∧ ¬ high ∧ ¬ medium ∧ low)
       ∧ (risk = "LOW" ↔ ∀ s, s ∈ scores → s < 40)).
Proof.
  intros Hscores.
  destruct (decide (detections = [])) as [->|Hne].
  - exists {[ "overall_risk" := VStr "SAFE";
              "max_hazard_score" := VNum 0;
              "critical_objects" := VNum 0;
              "high_priority_objects" := VNum 0;
              "recommendation" := VStr "No objects detected. Safe to proceed." ]},
           "SAFE".
    repeat split; done.
  - rewrite (calculate_zone_risk_ok _ scores) by done.
    assert (scores ≠ []) as Hne' by (by destruct Hscores).
    destruct (zone_report_lookup (count_scores (Qle_bool 80) scores)
                (count_scores (in_bucket 60 80) scores)
                (count_scores (in_bucket 40 60) scores)
                (round (max_score scores) 2) (length scores)) as [Hrisk _].
    eexists _, _. split; [reflexivity|]. split; [exact Hrisk|].
    assert ((0 <? count_scores (Qle_bool 80) scores)%Z = true
            ↔ ∃ s, s ∈ scores ∧ 80 <= s) as Hc.
    { rewrite Z.ltb_lt, count_scores_pos.
      by setoid_rewrite Qle_bool_iff. }
    assert ((0 <? count_scores (in_bucket 60 80) scores)%Z = true
            ↔ ∃ s, s ∈ scores ∧ 60 <= s ∧ s < 80) as Hh.
    { rewrite Z.ltb_lt, count_scores_pos. unfold in_bucket.
      setoid_rewrite andb_true_iff. setoid_rewrite negb_true_iff.
      setoid_rewrite Qle_bool_iff. by setoid_rewrite Qle_bool_false. }
    assert ((0 <? count_scores (in_bucket 40 60) scores)%Z = true
            ↔ ∃ s, s ∈ scores ∧ 40 <= s ∧ s < 60) as Hm.
    { rewrite Z.ltb_lt, count_scores_pos. unfold in_bucket.
      setoid_rewrite andb_true_iff. setoid_rewrite negb_true_iff.
      setoid_rewrite Qle_bool_iff. by setoid_rewrite Qle_bool_false. }
    assert ((∀ s, s ∈ scores → s < 40)
            ↔ ¬ (∃ s, s ∈ scores ∧ 80 <= s)
              ∧ ¬ (∃ s, s ∈ scores ∧ 60 <= s ∧ s < 80)
              ∧ ¬ (∃ s, s ∈ scores ∧ 40 <= s ∧ s < 60)) as Hall.
    { split.
      - intros Hlt. repeat split; intros (s & Hs & Hb);
          specialize (Hlt s Hs); lra.
      - intros (H80 & H60 & H40) s Hs.
        destruct (Qlt_le_dec s 40) as [|H1]; [done|]. exfalso.
        destruct (Qlt_le_dec s 60) as [|H2]; [apply H40; by exists s|].
        destruct (Qlt_le_dec s 80) as [|H3]; [apply H60; by exists s|].
        apply H80. by exists s. }
    assert ((∀ s, s ∈ scores → s < 40) → ∃ s, s ∈ scores ∧ s < 40) as Hlow.
    { intros Hlt. destruct scores as [|s ss]; [done|].
      exists s. split; [left|apply Hlt; left]. }
    split; [split; [|done]|].
    { intros E. repeat case_match; discriminate. }
    split; [done|]. intros _. cbv zeta. rewrite Hall.
    destruct (0 <? count_scores (Qle_bool 80) scores)%Z;
      [|destruct (0 <? count_scores (in_bucket 60 80) scores)%Z;
        [|destruct (0 <? count_scores (in_bucket 40 60) scores)%Z]];
      repeat bucket_fact;
      repeat (split; [bucket_iff|]); bucket_iff.
Qed.

Lemma overall_risk_highest_nonempty_bucket_witness :
  ∃ (r : gmap string pyval) (risk : string),
    calculate_zone_risk [detection 85; detection 62; detection 30] [1000; 1000; 3]
    = Ok r
    ∧ r !! "overall_risk" = Some (VStr risk)
    ∧ (risk = "CRITICAL" ↔ ∃ s, s ∈ [85; 62; 30] ∧ 80 <= s).
Proof.
  destruct (overall_risk_highest_nonempty_bucket
              [detection 85; detection 62; detection 30] [85; 62; 30]
              [1000; 1000; 3]) as (r & risk & Hr & Hrisk & _ & _ & Hbuckets).
  - repeat constructor.
  - exists r, risk. split; [exact Hr|]. split; [exact Hrisk|].
    apply Hbuckets. discriminate.
Defined.

(** ** C2 *)

(** C2. For every bounding box that lies inside the image
    ([0 <= x1 <= x2 <= width], [0 <= y1 <= y2 <= height]), every image shape
    of positive area and every class name, [calculate_hazard_score] returns a
    record whose [score] lies between 0 and 100. *)
Theorem score_within_0_100
    (x1 y1 x2 y2 h w : Q) (rest : list Q) (class_name : string) :
  0 <= x1 → x1 <= x2 → x2 <= w → 0 <= y1 → y1 <= y2 → y2 <= h →
  0 < h * w →
  ∃ (r : gmap string pyval) (s : Q),
    calculate_hazard_score [x1; y1; x2; y2] (h :: w :: rest) class_name = Ok r
    ∧ r !! "score" = Some (VNum s)
    ∧ 0 <= s ∧ s <= 100.
Proof.
  intros Hx1 Hx12 Hx2 Hy1 Hy12 Hy2 Harea.
  eexists _, _. split; [|split].
  - apply calculate_hazard_score_ok. lra.
  - apply hazard_record_lookup.
  - destruct (final_score_bounds x1 y1 x2 y2 h w class_name) as [Hlo Hhi];
      try done.
    by apply (round_2_bounds 0 100).
Qed.

Lemma score_within_0_100_witness :
  ∃ (r : gmap string pyval) (s : Q),
    calculate_hazard_score [120; 300; 480; 700] [720; 1280; 3] "worker" = Ok r
    ∧ r !! "score" = Some (VNum s)
    ∧ 0 <= s ∧ s <= 100.
Proof.
  apply (score_within_0_100 120 300 480 700 720 1280 [3] "worker");
    vm_compute; congruence.
Defined.

(** ** C3 *)

(** C3, at a box whose unrounded score is 79.996: the level is decided on
    79.996 (HIGH, 2-5m), the returned score is the rounded 80.0. *)
Theorem rounded_score_80_with_level_high :
  (record_fields <$>
     calculate_hazard_score [0; 738; 280; 994] [1000; 1000; 3] "bicycle")
  = Ok [Some (VNum 80); Some (VStr "HIGH"); Some (VStr "2-5m");
        Some (VStr "#FF6B00"); Some (VStr "PROCEED WITH CAUTION");
        Some (VNum 1.0)]
  ∧ final_score_of 0 738 280 994 1000 1000 "bicycle" == 79.996.
Proof. split; vm_compute; reflexivity. Qed.

(** ** C4 *)

(** C4. [calculate_hazard_score] looks the lowercased class name up in exactly
    the table person/human/worker/pedestrian = 1.2, child = 1.3,
    animal/dog/cat = 1.1, vehicle/car/truck = 0.9, bicycle/motorcycle = 1.0;
    a class name that is a key of the table, in any mix of upper and lower
    case, gets the multiplier of that key; a class name that is not in the
    table gets the neutral multiplier 1.0 and so produces the same result as
    "bicycle" and as "motorcycle" on the same bounding box and image shape;
    the [priority] field of the returned record is the multiplier used. *)
Theorem class_multiplier_table
    (bbox image_shape : list Q) (class_name : string) :
  dict_get class_multipliers (lower class_name) 1.0
    = spec_multiplier (lower class_name)
  ∧ (∀ (key : string) (multiplier : Q),
       class_multipliers !! key = Some multiplier →
       case_variant class_name key →
       dict_get class_multipliers (lower class_name) 1.0 = multiplier
       ∧ ∀ r : gmap string pyval,
           calculate_hazard_score bbox image_shape class_name = Ok r →
           r !! "priority" = Some (VNum multiplier))
  ∧ (class_multipliers !! lower class_name = None →
       dict_get class_multipliers (lower class_name) 1.0 = 1.0
       ∧ calculate_hazard_score bbox image_shape class_name
         = calculate_hazard_score bbox image_shape "bicycle"
       ∧ calculate_hazard_score bbox image_shape class_name
         = calculate_hazard_score bbox image_shape "motorcycle")
  ∧ (∀ r : gmap string pyval,
       calculate_hazard_score bbox image_shape class_name = Ok r →
       r !! "priority"
       = Some (VNum (dict_get class_multipliers (lower class_name) 1.0))).
Proof.
  split; [apply class_multipliers_get|]. split; [|split].
  - intros key multiplier Hkey Hvar.
    assert (multiplier_of class_name = multiplier) as Hm.
    { unfold multiplier_of, dict_get.
      by rewrite (lower_case_variant class_name key Hvar), Hkey. }
    split; [exact Hm|]. intros r Hr.
    apply calculate_hazard_score_priority in Hr. by rewrite Hr, Hm.
  - intros Hnone.
    assert (multiplier_of class_name = 1.0) as Hm
      by (unfold multiplier_of, dict_get; by rewrite Hnone).
    split; [exact Hm|].
    split; apply calculate_hazard_score_same_multiplier; by rewrite Hm.
  - intros r Hr. by apply calculate_hazard_score_priority in Hr.
Qed.

Lemma class_multiplier_table_witness :
  (class_multipliers !! "truck" = Some 0.9
   ∧ case_variant "TrUCk" "truck"
   ∧ dict_get class_multipliers (lower "TrUCk") 1.0 = 0.9)
  ∧ (class_multipliers !! lower "Drone" = None
     ∧ calculate_hazard_score [0; 0; 100; 100] [1000; 1000; 3] "Drone"
       = calculate_hazard_score [0; 0; 100; 100] [1000; 1000; 3] "bicycle")
  ∧ (record_fields <$> calculate_hazard_score [0; 0; 100; 100] [1000; 1000; 3] "Drone")
    = Ok [Some (VNum 10); Some (VStr "LOW"); Some (VStr "8m+");
          Some (VStr "#00FF00"); Some (VStr "SAFE TO PROCEED"); Some (VNum 1.0)].
Proof.
  assert (class_multipliers !! "truck" = Some 0.9) as Hkey by reflexivity.
  assert (case_variant "TrUCk" "truck") as Hvar
    by (vm_compute; repeat split; first [by left|by right|lia]).
  assert (class_multipliers !! lower "Drone" = None) as Hnone by reflexivity.
  split; [|split].
  - split; [exact Hkey|]. split; [exact Hvar|].
    destruct (class_multiplier_table [0; 0; 100; 100] [1000; 1000; 3] "TrUCk")
      as (_ & Hpin & _).
    by apply (Hpin "truck" 0.9).
  - split; [exact Hnone|].
    by apply (class_multiplier_table [0; 0; 100; 100] [1000; 1000; 3] "Drone").
  - vm_compute. reflexivity.
Defined.

(** ** C5 *)

(** C5, refuted as stated: the record [calculate_hazard_score] returns for
    the car of the second scenario, passed on its own to
    [calculate_zone_risk], raises [KeyError]: the aggregator reads the key
    [hazard_score], the record stores its score under [score]. *)
Lemma zone_risk_raises_on_hazard_record :
  (r ← calculate_hazard_score [0; 900; 1000; 1000] [1000; 1000; 3] "car";
   calculate_zone_risk [r] [1000; 1000; 3])
  = Raise (KeyError "hazard_score").
Proof. vm_compute. reflexivity. Qed.

(** C5, as amended. Take a non-empty list of hazard records produced by
    [calculate_hazard_score] and detection dicts that carry each record's
    [score] under the key [hazard_score] (as the service layer builds them).
    Then [calculate_zone_risk] succeeds on the detection dicts, and its result
    is the same for any two such lists of dicts: it depends on the
    [hazard_score] values only, not on the level or any other field. *)
Theorem zone_risk_reads_hazard_score_only
    (records detections detections' : list (gmap string pyval))
    (image_shape : list Q) :
  records ≠ [] →
  Forall produced records →
  Forall2 (λ d r, d !! "hazard_score" = r !! "score") detections records →
  Forall2 (λ d r, d !! "hazard_score" = r !! "score") detections' records →
  ∃ z : gmap string pyval,
    calculate_zone_risk detections image_shape = Ok z
    ∧ calculate_zone_risk detections' image_shape = Ok z.
Proof.
  intros Hne Hprod Hd Hd'.
  assert (detections ≠ []) as Hne1
    by (intros ->; apply Forall2_length in Hd; by destruct records).
  assert (detections' ≠ []) as Hne2
    by (intros ->; apply Forall2_length in Hd'; by destruct records).
  exists (zone_report_of (record_score <$> records)).
  split; apply calculate_zone_risk_ok;
    first [done | by apply detections_of_records].
Qed.

Lemma zone_risk_reads_hazard_score_only_witness :
  ∃ z : gmap string pyval,
    calculate_zone_risk
      [ {[ "hazard_score" := VNum 90; "hazard_level" := VStr "CRITICAL" ]} ]
      [1000; 1000; 3] = Ok z
    ∧ calculate_zone_risk
        [ {[ "class" := VStr "car"; "hazard_score" := VNum 90;
             "hazard_level" := VStr "LOW"; "estimated_distance" := VStr "8m+" ]} ]
        [1000; 1000; 3] = Ok z.
Proof.
  apply (zone_risk_reads_hazard_score_only
           [hazard_record (final_score_of 0 900 1000 1000 1000 1000 "car")
                          (multiplier_of "car")]).
  - discriminate.
  - constructor; [|constructor].
    exists [0; 900; 1000; 1000], [1000; 1000; 3], "car".
    apply calculate_hazard_score_ok. discriminate.
  - constructor; [vm_compute; reflexivity|constructor].
  - constructor; [vm_compute; reflexivity|constructor].
Defined.

(** ** C6 *)

(** C6. For every bounding box and class name, when the image area
    (height × width) is zero, [calculate_hazard_score] raises
    [ZeroDivisionError] and returns no record. *)
Theorem zero_image_area_raises
    (x1 y1 x2 y2 h w : Q) (rest : list Q) (class_name : string) :
  h * w == 0 →
  calculate_hazard_score [x1; y1; x2; y2] (h :: w :: rest) class_name
  = Raise ZeroDivisionError.
Proof.
  intros Harea. unfold calculate_hazard_score, unpack4, unpack2.
  change (take 2 (h :: w :: rest)) with [h; w].
  cbn [mbind result_bind].
  by rewrite (truediv_zero _ _ Harea).
Qed.

Lemma zero_image_area_raises_witness :
  calculate_hazard_score [10; 20; 110; 220] [0; 640; 3] "person"
  = Raise ZeroDivisionError.
Proof.
  apply (zero_image_area_raises 10 20 110 220 0 640 [3] "person").
  reflexivity.
Defined.

(** ** C7 *)

(** C7, refuted as stated: the box (100, 0, 0, 100) has [x2 < x1]; its score
    is -4, the score of the zero-area box (0, 0, 0, 100) with the same [y2]
    is 3. *)
Lemma negative_width_box_scores_below_zero_area_box :
  score_of [100; 0; 0; 100] [1000; 1000; 3] "bicycle" = Ok (Some (VNum (-4)))
  ∧ score_of [0; 0; 0; 100] [1000; 1000; 3] "bicycle" = Ok (Some (VNum 3))
  ∧ score_of [100; 0; 0; 100] [1000; 1000; 3] "bicycle"
    ≠ score_of [0; 0; 0; 100] [1000; 1000; 3] "bicycle".
Proof. vm_compute. repeat split; intros [=]. Qed.

(** C7, as amended. A bounding box with [x2 < x1] or [y2 < y1], in an image
    of positive area, is accepted and not clamped: [bbox_area] is the signed
    product [(x2-x1)*(y2-y1)], and the score is less than a hundredth away
    from the final score computed with it.  Compared with any zero-area box
    with the same [y2], its score is at most that box's score when exactly
    one side is negative, and at least that score when both sides are
    negative. *)
Theorem negative_side_box_signed_area
    (x1 y1 x2 y2 x1' y1' x2' h w : Q) (rest : list Q) (class_name : string) :
  0 < h * w →
  x2 < x1 ∨ y2 < y1 →
  (x2' - x1') * (y2 - y1') == 0 →
  ∃ s s0 : Q,
    score_of [x1; y1; x2; y2] (h :: w :: rest) class_name = Ok (Some (VNum s))
    ∧ score_of [x1'; y1'; x2'; y2] (h :: w :: rest) class_name
      = Ok (Some (VNum s0))
    ∧ Qabs (s - Qmin (Qmin ((x2 - x1) * (y2 - y1) / (h * w) * 700
                             + y2 / h * 30) 100
                       * dict_get class_multipliers (lower class_name) 1.0)
                      100) < 1 # 100
    ∧ ((x2 < x1 ∧ y1 <= y2) ∨ (x1 <= x2 ∧ y2 < y1) → s <= s0)
    ∧ (x2 < x1 ∧ y2 < y1 → s0 <= s).
Proof.
  intros Harea Hneg Hzero.
  eexists _, _. split; [|split; [|split; [|split]]].
  - apply score_of_ok. lra.
  - apply score_of_ok. lra.
  - by apply (round_2_near (final_score_of x1 y1 x2 y2 h w class_name)).
  - intros Hone. apply score_mono_in_area; [done|].
    rewrite Hzero. destruct Hone as [[? ?]|[? ?]]; nra.
  - intros [? ?]. apply score_mono_in_area; [done|].
    rewrite Hzero. nra.
Qed.

Lemma negative_side_box_signed_area_witness :
  ∃ s s0 : Q,
    score_of [100; 0; 0; 100] [1000; 1000; 3] "bicycle" = Ok (Some (VNum s))
    ∧ score_of [0; 0; 0; 100] [1000; 1000; 3] "bicycle" = Ok (Some (VNum s0))
    ∧ Qabs (s - Qmin (Qmin ((0 - 100) * (100 - 0) / (1000 * 1000) * 700
                             + 100 / 1000 * 30) 100
                       * dict_get class_multipliers (lower "bicycle") 1.0)
                      100) < 1 # 100
    ∧ ((0 < 100 ∧ 0 <= 100) ∨ (100 <= 0 ∧ 100 < 0) → s <= s0)
    ∧ (0 < 100 ∧ 100 < 0 → s0 <= s).
Proof.
  apply (negative_side_box_signed_area 100 0 0 100 0 0 0 1000 1000 [3] "bicycle").
  - reflexivity.
  - left. reflexivity.
  - reflexivity.
Defined.

(** ** C8 *)

(** C8, refuted as stated: two zero-area boxes inside the same image, of the
    same class; the one on the bottom edge scores 30, the one on the top edge
    scores 0, so a degenerate box does not always get the least score. *)
Lemma degenerate_box_at_bottom_scores_30 :
  score_of [500; 200; 500; 1000] [1000; 1000; 3] "bicycle"
  = Ok (Some (VNum 30))
  ∧ score_of [0; 0; 1000; 0] [1000; 1000; 3] "bicycle" = Ok (Some (VNum 0))
  ∧ score_of [500; 200; 500; 1000] [1000; 1000; 3] "bicycle"
    ≠ score_of [0; 0; 1000; 0] [1000; 1000; 3] "bicycle".
Proof. vm_compute. repeat split; intros [=]. Qed.

(** C8, as amended. For every degenerate bounding box (zero width or zero
    height) inside an image of positive area, [calculate_hazard_score]
    succeeds; the score comes from the bottom edge alone, less than a
    hundredth away from [30 * y2 / image_height * multiplier]: it is the
    least score among all boxes inside the image with the same [y2] and
    class, lies between 0 and 39 with level LOW, and is 0 when [y2 = 0]. *)
Theorem degenerate_box_scores_least_for_its_bottom_edge
    (x1 y1 x2 y2 h w : Q) (rest : list Q) (class_name : string) :
  0 <= x1 → x1 <= x2 → x2 <= w → 0 <= y1 → y1 <= y2 → y2 <= h →
  0 < h * w →
  x1 == x2 ∨ y1 == y2 →
  ∃ s : Q,
    score_of [x1; y1; x2; y2] (h :: w :: rest) class_name = Ok (Some (VNum s))
    ∧ level_of [x1; y1; x2; y2] (h :: w :: rest) class_name
      = Ok (Some (VStr "LOW"))
    ∧ Qabs (s - y2 / h * 30
                * dict_get class_multipliers (lower class_name) 1.0) < 1 # 100
    ∧ 0 <= s ∧ s <= 39
    ∧ (y2 == 0 → s == 0)
    ∧ ∀ x1' y1' x2' : Q,
        0 <= x1' → x1' <= x2' → x2' <= w → 0 <= y1' → y1' <= y2 →
        ∃ s' : Q,
          score_of [x1'; y1'; x2'; y2] (h :: w :: rest) class_name
          = Ok (Some (VNum s'))
          ∧ s <= s'.
Proof.
  intros Hx1 Hx12 Hx2 Hy1 Hy12 Hy2 Harea Hdeg.
  assert (¬ h * w == 0) as Hne by lra.
  assert ((x2 - x1) * (y2 - y1) == 0) as Hzero
    by (destruct Hdeg as [E|E]; rewrite E; ring).
  destruct (degenerate_final_score x1 y1 x2 y2 h w class_name)
    as (Hlo & Hhi & Hy0); try done; try lra.
  eexists. split; [by apply score_of_ok|].
  split; [|split; [|split; [|split; [|split]]]].
  - rewrite level_of_ok by done. do 3 f_equal.
    destruct (classify_thresholds (final_score_of x1 y1 x2 y2 h w class_name))
      as (_ & _ & _ & Hlow & _).
    apply Hlow. lra.
  - apply round_2_near, degenerate_final_score_eq; try done; lra.
  - by apply (round_2_bounds 0 39).
  - by apply (round_2_bounds 0 39).
  - intros E. specialize (Hy0 E).
    destruct (round_2_bounds 0 0 (final_score_of x1 y1 x2 y2 h w class_name));
      try done.
    by apply Qle_antisym.
  - intros x1' y1' x2' Hx1' Hx12' Hx2' Hy1' Hy12'.
    eexists. split; [by apply score_of_ok|].
    apply score_mono_in_area; [done|]. rewrite Hzero. nra.
Qed.

Lemma degenerate_box_scores_least_for_its_bottom_edge_witness :
  ∃ s : Q,
    score_of [500; 200; 500; 1000] [1000; 1000; 3] "child"
    = Ok (Some (VNum s))
    ∧ level_of [500; 200; 500; 1000] [1000; 1000; 3] "child"
      = Ok (Some (VStr "LOW"))
    ∧ Qabs (s - 1000 / 1000 * 30
                * dict_get class_multipliers (lower "child") 1.0) < 1 # 100
    ∧ 0 <= s ∧ s <= 39
    ∧ (1000 == 0 → s == 0)
    ∧ ∀ x1' y1' x2' : Q,
        0 <= x1' → x1' <= x2' → x2' <= 1000 → 0 <= y1' → y1' <= 1000 →
        ∃ s' : Q,
          score_of [x1'; y1'; x2'; 1000] [1000; 1000; 3] "child"
          = Ok (Some (VNum s'))
          ∧ s <= s'.
Proof.
  apply (degenerate_box_scores_least_for_its_bottom_edge
           500 200 500 1000 1000 1000 [3] "child");
    try (vm_compute; congruence).
  left. reflexivity.
Defined.

(** ** C9 *)

(** C9, refuted as stated: the string returned for CRITICAL is not the bare
    text of the specification; it starts with a warning sign. *)
Lemma critical_alert_has_symbol_prefix :
  generate_alert_message {[ "overall_risk" := VStr "CRITICAL" ]}
  ≠ Ok "CRITICAL ALERT: Object detected in immediate vicinity! STOP DUMPING!"
  ∧ generate_alert_message {[ "overall_risk" := VStr "CRITICAL" ]}
    = Ok ("⚠️ " +:+ "CRITICAL ALERT: Object detected in immediate vicinity! STOP DUMPING!").
Proof. vm_compute. split; [intros [=]|reflexivity]. Qed.

(** C9, as amended. [generate_alert_message] is a pure lookup on the
    [overall_risk] field: it returns the text of the specification preceded
    by a symbol and a space ("⚠️ " for CRITICAL and HIGH, "⚡ " for MEDIUM,
    "✓ " for LOW and SAFE), and "Status unknown" for every other value. *)
Theorem alert_message_lookup (zone_risk : gmap string pyval) (risk : pyval) :
  zone_risk !! "overall_risk" = Some risk →
  ∃ msg : string,
    generate_alert_message zone_risk = Ok msg
    ∧ (risk = VStr "CRITICAL" →
       msg = "⚠️ CRITICAL ALERT: Object detected in immediate vicinity! STOP DUMPING!")
    ∧ (risk = VStr "HIGH" →
       msg = "⚠️ HIGH RISK: Object approaching danger zone. Proceed with extreme caution.")
    ∧ (risk = VStr "MEDIUM" →
       msg = "⚡ CAUTION: Object detected nearby. Monitor before dumping.")
    ∧ (risk = VStr "LOW" →
       msg = "✓ LOW RISK: Area monitored. Safe to proceed.")
    ∧ (risk = VStr "SAFE" →
       msg = "✓ SAFE: No objects detected in monitoring zones.")
    ∧ (risk ∉ [VStr "CRITICAL"; VStr "HIGH"; VStr "MEDIUM"; VStr "LOW";
               VStr "SAFE"] →
       msg = "Status unknown").
Proof.
  intros Hrisk. unfold generate_alert_message, getitem. rewrite Hrisk.
  cbn [mbind result_bind mret result_ret]. eexists. split; [reflexivity|].
  repeat split; try (intros ->; reflexivity).
  intros Hother. destruct risk as [s|q]; [|reflexivity].
  unfold dict_get, alerts.
  repeat (rewrite lookup_insert; case_decide as Hk;
          [subst s; exfalso; apply Hother;
           rewrite !elem_of_cons; tauto
          |clear Hk]).
  rewrite lookup_singleton. case_decide as Hk; [|reflexivity].
  subst s. exfalso. apply Hother. rewrite !elem_of_cons. tauto.
Qed.

Lemma alert_message_lookup_witness :
  ∃ msg : string,
    generate_alert_message
      {[ "overall_risk" := VStr "MEDIUM"; "total_objects" := VNum 2 ]} = Ok msg
    ∧ msg = "⚡ CAUTION: Object detected nearby. Monitor before dumping.".
Proof.
  assert (({[ "overall_risk" := VStr "MEDIUM"; "total_objects" := VNum 2 ]}
             : gmap string pyval) !! "overall_risk" = Some (VStr "MEDIUM"))
    as Hrisk by reflexivity.
  destruct (alert_message_lookup _ _ Hrisk) as (msg & Hmsg & _ & _ & Hmedium & _).
  exists msg. split; [exact Hmsg|]. by apply Hmedium.
Defined.

(** ** C10 *)

(** C10. [calculate_zone_risk] is order-insensitive: for every list of
    detection records (each carrying a number under [hazard_score]) and every
    permutation of it, the call succeeds on both and returns the same dict:
    same [overall_risk], [max_hazard_score], counts, [total_objects] and
    [recommendation]. *)
Theorem zone_risk_order_insensitive
    (detections detections' : list (gmap string pyval)) (image_shape : list Q) :
  Forall (λ d, ∃ s, has_hazard_score d s) detections →
  detections ≡ₚ detections' →
  ∃ r : gmap string pyval,
    calculate_zone_risk detections image_shape = Ok r
    ∧ calculate_zone_risk detections' image_shape = Ok r.
Proof.
  intros Hall Hperm.
  destruct (decide (detections = [])) as [->|Hne].
  - assert (detections' = []) as ->
      by (apply Permutation_length in Hperm; by destruct detections').
    eexists. split; reflexivity.
  - assert (detections' ≠ []) as Hne'
      by (intros ->; apply Permutation_length in Hperm; by destruct detections).
    assert (Forall (λ d, ∃ s, has_hazard_score d s) detections') as Hall'
      by (by rewrite <- Hperm).
    exists (zone_report_of (score_value <$> detections)). split.
    + apply calculate_zone_risk_ok; [done|by apply Forall2_score_value].
    + rewrite (zone_report_of_Permutation _ (score_value <$> detections'))
        by (by apply fmap_Permutation).
      apply calculate_zone_risk_ok; [done|by apply Forall2_score_value].
Qed.

Lemma zone_risk_order_insensitive_witness :
  ∃ r : gmap string pyval,
    calculate_zone_risk [detection 85; detection 62; detection 30] [1000; 1000; 3]
    = Ok r
    ∧ calculate_zone_risk [detection 30; detection 62; detection 85] [1000; 1000; 3]
      = Ok r.
Proof.
  apply zone_risk_order_insensitive.
  - repeat constructor; eexists; reflexivity.
  - apply (Permutation_rev [detection 85; detection 62; detection 30]).
Defined.

(** * Further properties of [hazard_scoring.py] *)

(** The three outcomes of [calculate_hazard_score], by the shape of its
    arguments. *)
Lemma calculate_hazard_score_cases (bbox image_shape : list Q) (c : string) :
  calculate_hazard_score bbox image_shape c
  = match bbox, image_shape with
    | [x1; y1; x2; y2], h :: w :: _ =>
        if Qeq_bool (h * w) 0 then Raise ZeroDivisionError
        else Ok (hazard_record (final_score_of x1 y1 x2 y2 h w c)
                               (multiplier_of c))
    | _, _ => Raise ValueError
    end.
Proof.
  destruct bbox as [|x1 [|y1 [|x2 [|y2 [|x5 bbox]]]]];
    destruct image_shape as [|h [|w rest]]; try reflexivity.
  destruct (Qeq_bool (h * w) 0) eqn:E.
  - apply Qeq_bool_iff in E.
    unfold calculate_hazard_score, unpack4, unpack2.
    change (take 2 (h :: w :: rest)) with [h; w].
    cbn [mbind result_bind]. by rewrite (truediv_zero _ _ E).
  - apply calculate_hazard_score_ok. by apply Qeq_bool_neq.
Qed.

Lemma calculate_hazard_score_inv
    (bbox image_shape : list Q) (c : string) (r : gmap string pyval) :
  calculate_hazard_score bbox image_shape c = Ok r →
  ∃ (x1 y1 x2 y2 h w : Q) (rest : list Q),
    bbox = [x1; y1; x2; y2] ∧ image_shape = h :: w :: rest
    ∧ ¬ h * w == 0
    ∧ r = hazard_record (final_score_of x1 y1 x2 y2 h w c) (multiplier_of c).
Proof.
  rewrite calculate_hazard_score_cases.
  destruct bbox as [|x1 [|y1 [|x2 [|y2 [|x5 bbox]]]]];
    destruct image_shape as [|h [|w rest]];
    try (intros Hr; discriminate Hr).
  destruct (Qeq_bool (h * w) 0) eqn:E; intros [= <-].
  exists x1, y1, x2, y2, h, w, rest. repeat split.
  by apply Qeq_bool_neq.
Qed.

(** Each side of the equivalences below is either refuted by the outcome at
    hand or holds by the case assumptions. *)
Local Ltac outcome_refute H :=
  lazymatch type of H with
  | _ = _ => discriminate H
  | ex _ => destruct H as [? H]; discriminate H
  | _ ∨ _ => destruct H as [H|H]; [contradiction | cbn in H; lia]
  | _ ∧ _ =>
      first
        [ destruct H as [H _]; contradiction
        | destruct H as (_ & ? & ? & ? & H & _); discriminate H
        | destruct H as (_ & ? & ? & ? & H & ?); injection H as <- <- <-;
          contradiction ]
  end.

Local Ltac outcome_iff :=
  split; intros H;
  first
    [ outcome_refute H
    | reflexivity
    | by eexists
    | split; [done | by eexists _, _, _]
    | by left
    | right; cbn; lia ].

(** X1. [calculate_hazard_score] returns a record exactly when the bounding
    box has four coordinates, the image shape has at least two entries and
    height × width is not zero.  It raises [ValueError] exactly when the box
    has not four coordinates or the shape has fewer than two entries (the
    unpackings of lines 18 and 23), and [ZeroDivisionError] exactly when both
    unpackings succeed and the image area is zero. *)
Theorem hazard_score_outcomes
    (bbox image_shape : list Q) (class_name : string) :
  ((∃ r, calculate_hazard_score bbox image_shape class_name = Ok r)
   ↔ length bbox = 4%nat
     ∧ ∃ h w rest, image_shape = h :: w :: rest ∧ ¬ h * w == 0)
  ∧ (calculate_hazard_score bbox image_shape class_name = Raise ValueError
     ↔ length bbox ≠ 4%nat ∨ (length image_shape < 2)%nat)
  ∧ (calculate_hazard_score bbox image_shape class_name
     = Raise ZeroDivisionError
     ↔ length bbox = 4%nat
       ∧ ∃ h w rest, image_shape = h :: w :: rest ∧ h * w == 0).
Proof.
  rewrite calculate_hazard_score_cases.
  destruct (decide (length bbox = 4%nat)) as [Hlen|Hlen].
  - destruct bbox as [|x1 [|y1 [|x2 [|y2 [|x5 bbox]]]]]; try discriminate Hlen.
    destruct image_shape as [|h [|w rest]].
    + split; [|split]; outcome_iff.
    + split; [|split]; outcome_iff.
    + destruct (Qeq_bool (h * w) 0) eqn:E.
      * apply Qeq_bool_iff in E. split; [|split]; outcome_iff.
      * apply Qeq_bool_neq in E. split; [|split]; outcome_iff.
  - assert (match bbox, image_shape with
            | [x1; y1; x2; y2], h :: w :: _ =>
                if Qeq_bool (h * w) 0 then Raise ZeroDivisionError
                else Ok (hazard_record (final_score_of x1 y1 x2 y2 h w class_name)
                                       (multiplier_of class_name))
            | _, _ => Raise ValueError
            end = Raise ValueError) as ->
      by (destruct bbox as [|x1 [|y1 [|x2 [|y2 [|x5 bbox]]]]];
          destruct image_shape as [|h [|w rest]]; done).
    split; [|split]; outcome_iff.
Qed.

(** Both terms of the base score grow with the signed area and with the
    bottom edge. *)
Lemma final_score_mono_area_bottom (a a' y y' h w m : Q) :
  0 < h → 0 < w → 0 <= m → a <= a' → y <= y' →
  Qmin (Qmin (a / (h * w) * 700 + y / h * 30) 100 * m) 100
  <= Qmin (Qmin (a' / (h * w) * 700 + y' / h * 30) 100 * m) 100.
Proof.
  intros Hh Hw Hm Ha Hy.
  assert (0 < h * w) as Harea by nra.
  apply Q.min_le_compat_r, Qmult_le_compat_r; [|done].
  apply Q.min_le_compat_r.
  pose proof (Qdiv_le_compat_r _ _ _ Ha Harea).
  pose proof (Qdiv_le_compat_r _ _ _ Hy Hh). lra.
Qed.

(** X2. Whatever the bounding box (also outside the image or with negative
    sides), a returned score is at most 100, and at most 90 for the classes
    vehicle, car and truck: the base score is cut at 100 before the
    multiplier 0.9 is applied. *)
Theorem score_at_most_100_vehicles_at_most_90
    (bbox image_shape : list Q) (class_name : string)
    (r : gmap string pyval) :
  calculate_hazard_score bbox image_shape class_name = Ok r →
  ∃ s : Q,
    r !! "score" = Some (VNum s)
    ∧ s <= 100
    ∧ (lower class_name ∈ ["vehicle"; "car"; "truck"] → s <= 90).
Proof.
  intros (x1 & y1 & x2 & y2 & h & w & rest & -> & -> & Hne & ->)
    %calculate_hazard_score_inv.
  eexists. split; [apply hazard_record_lookup|]. split.
  - apply (round_2_upper 100). apply Q.le_min_r.
  - intros Hveh. apply (round_2_upper 90). unfold final_score_of.
    assert (multiplier_of class_name = 0.9) as ->.
    { unfold multiplier_of.
      repeat (apply elem_of_cons in Hveh as [->|Hveh]; [reflexivity|]).
      by apply elem_of_nil in Hveh. }
    apply Qle_trans with
      (Qmin ((x2 - x1) * (y2 - y1) / (h * w) * 700 + y2 / h * 30) 100 * 0.9);
      [apply Q.le_min_l|].
    pose proof (Q.le_min_r ((x2 - x1) * (y2 - y1) / (h * w) * 700
                            + y2 / h * 30) 100).
    change (inject_Z 90) with 90. lra.
Qed.

Lemma score_at_most_100_vehicles_at_most_90_witness :
  ∃ s : Q,
    hazard_record (final_score_of 0 0 2000 2000 1000 1000 "Truck")
                  (multiplier_of "Truck") !! "score" = Some (VNum s)
    ∧ s <= 100
    ∧ (lower "Truck" ∈ ["vehicle"; "car"; "truck"] → s <= 90).
Proof.
  apply (score_at_most_100_vehicles_at_most_90
           [0; 0; 2000; 2000] [1000; 1000; 3] "Truck").
  apply calculate_hazard_score_ok. discriminate.
Defined.

(** X3. In an image of positive height and width, a box with at least the
    signed area and at least the bottom edge [y2] of another box of the same
    class never scores lower. *)
Theorem score_monotone_in_area_and_bottom_edge
    (x1 y1 x2 y2 x1' y1' x2' y2' h w : Q) (rest : list Q)
    (class_name : string) :
  0 < h → 0 < w →
  (x2 - x1) * (y2 - y1) <= (x2' - x1') * (y2' - y1') →
  y2 <= y2' →
  ∃ s s' : Q,
    score_of [x1; y1; x2; y2] (h :: w :: rest) class_name = Ok (Some (VNum s))
    ∧ score_of [x1'; y1'; x2'; y2'] (h :: w :: rest) class_name
      = Ok (Some (VNum s'))
    ∧ s <= s'.
Proof.
  intros Hh Hw Ha Hy.
  assert (¬ h * w == 0) as Hne by nra.
  eexists _, _. split; [by apply score_of_ok|]. split; [by apply score_of_ok|].
  apply round_2_mono. unfold final_score_of.
  apply final_score_mono_area_bottom; try done.
  destruct (multiplier_of_range class_name). lra.
Qed.

Lemma score_monotone_in_area_and_bottom_edge_witness :
  ∃ s s' : Q,
    score_of [100; 100; 300; 400] [720; 1280; 3] "person" = Ok (Some (VNum s))
    ∧ score_of [50; 100; 400; 600] [720; 1280; 3] "person"
      = Ok (Some (VNum s'))
    ∧ s <= s'.
Proof.
  apply (score_monotone_in_area_and_bottom_edge
           100 100 300 400 50 100 400 600 720 1280 [3] "person");
    vm_compute; congruence.
Defined.

(** X4. The returned score is a whole number of hundredths and differs from
    the unrounded [final_score] by at most 0.005. *)
Theorem score_is_final_score_to_two_decimals
    (x1 y1 x2 y2 h w : Q) (rest : list Q) (class_name : string) :
  ¬ h * w == 0 →
  ∃ (s : Q) (n : Z),
    score_of [x1; y1; x2; y2] (h :: w :: rest) class_name = Ok (Some (VNum s))
    ∧ s == inject_Z n / 100
    ∧ - (1 # 200) <= s - final_score_of x1 y1 x2 y2 h w class_name
    ∧ s - final_score_of x1 y1 x2 y2 h w class_name <= 1 # 200.
Proof.
  intros Hne. eexists _, _. split; [by apply score_of_ok|].
  split; [apply round_2_unfold|apply round_2_error].
Qed.

Lemma score_is_final_score_to_two_decimals_witness :
  ∃ (s : Q) (n : Z),
    score_of [0; 738; 280; 994] [1000; 1000; 3] "bicycle" = Ok (Some (VNum s))
    ∧ s == inject_Z n / 100
    ∧ - (1 # 200) <= s - final_score_of 0 738 280 994 1000 1000 "bicycle"
    ∧ s - final_score_of 0 738 280 994 1000 1000 "bicycle" <= 1 # 200.
Proof.
  apply (score_is_final_score_to_two_decimals 0 738 280 994 1000 1000 [3]).
  discriminate.
Defined.

(** X5. The level always brackets the returned score, boundaries included:
    CRITICAL comes with a score of at least 80, HIGH with a score from 60 to
    80, MEDIUM with a score from 40 to 60 and LOW with a score of at most 40;
    the distance bucket is the one of the level. *)
Theorem level_brackets_returned_score
    (x1 y1 x2 y2 h w : Q) (rest : list Q) (class_name : string) :
  ¬ h * w == 0 →
  ∃ (r : gmap string pyval) (s : Q) (level distance : string),
    calculate_hazard_score [x1; y1; x2; y2] (h :: w :: rest) class_name = Ok r
    ∧ r !! "score" = Some (VNum s)
    ∧ r !! "level" = Some (VStr level)
    ∧ r !! "estimated_distance" = Some (VStr distance)
    ∧ ((level = "CRITICAL" ∧ distance = "0-2m" ∧ 80 <= s)
       ∨ (level = "HIGH" ∧ distance = "2-5m" ∧ 60 <= s ∧ s <= 80)
       ∨ (level = "MEDIUM" ∧ distance = "5-8m" ∧ 40 <= s ∧ s <= 60)
       ∨ (level = "LOW" ∧ distance = "8m+" ∧ s <= 40)).
Proof.
  intros Hne. rewrite calculate_hazard_score_ok by done.
  set (final := final_score_of x1 y1 x2 y2 h w class_name).
  destruct (hazard_record_lookup final (multiplier_of class_name))
    as (Hs & Hl & Hd & _).
  eexists _, _, _, _. split; [reflexivity|].
  split; [exact Hs|]. split; [exact Hl|]. split; [exact Hd|].
  unfold classify.
  destruct (Qle_bool 80 final) eqn:E80;
    [|destruct (Qle_bool 60 final) eqn:E60;
      [|destruct (Qle_bool 40 final) eqn:E40]];
    rewrite ?Qle_bool_iff, ?Qle_bool_false in *; cbn [fst snd].
  - left. repeat split. by apply (round_2_lower 80).
  - right; left. repeat split;
      [by apply (round_2_lower 60)|apply (round_2_upper 80); unfold inject_Z; lra].
  - right; right; left. repeat split;
      [by apply (round_2_lower 40)|apply (round_2_upper 60); unfold inject_Z; lra].
  - right; right; right. repeat split. apply (round_2_upper 40).
    unfold inject_Z. lra.
Qed.

Lemma level_brackets_returned_score_witness :
  ∃ (r : gmap string pyval) (s : Q) (level distance : string),
    calculate_hazard_score [0; 738; 280; 994] [1000; 1000; 3] "bicycle" = Ok r
    ∧ r !! "score" = Some (VNum s)
    ∧ r !! "level" = Some (VStr level)
    ∧ r !! "estimated_distance" = Some (VStr distance)
    ∧ ((level = "CRITICAL" ∧ distance = "0-2m" ∧ 80 <= s)
       ∨ (level = "HIGH" ∧ distance = "2-5m" ∧ 60 <= s ∧ s <= 80)
       ∨ (level = "MEDIUM" ∧ distance = "5-8m" ∧ 40 <= s ∧ s <= 60)
       ∨ (level = "LOW" ∧ distance = "8m+" ∧ s <= 40)).
Proof.
  apply (level_brackets_returned_score 0 738 280 994 1000 1000 [3] "bicycle").
  discriminate.
Defined.

(** X6. The class name is matched without regard to the case of its ASCII
    letters: a name and its lowercased form give the same result, and so do
    any two names with the same lowercased form. *)
Theorem hazard_score_ignores_letter_case
    (bbox image_shape : list Q) (class_name class_name' : string) :
  calculate_hazard_score bbox image_shape class_name
  = calculate_hazard_score bbox image_shape (lower class_name)
  ∧ (lower class_name = lower class_name' →
     calculate_hazard_score bbox image_shape class_name
     = calculate_hazard_score bbox image_shape class_name').
Proof.
  split.
  - apply calculate_hazard_score_same_multiplier.
    unfold multiplier_of. by rewrite lower_idemp.
  - intros Heq. apply calculate_hazard_score_same_multiplier.
    unfold multiplier_of. by rewrite Heq.
Qed.

Lemma hazard_score_ignores_letter_case_witness :
  calculate_hazard_score [0; 0; 100; 100] [1000; 1000; 3] "PERSON"
  = calculate_hazard_score [0; 0; 100; 100] [1000; 1000; 3] "Person".
Proof.
  apply (hazard_score_ignores_letter_case
           [0; 0; 100; 100] [1000; 1000; 3] "PERSON" "Person").
  reflexivity.
Defined.

(** ** The aggregator *)

Lemma count_where_raises {A : Type} (cond : A → result bool)
    (good : list A) (d : A) (rest : list A) (e : exn) :
  Forall (λ d, ∃ b, cond d = Ok b) good →
  cond d = Raise e →
  count_where cond (good ++ d :: rest) = Raise e.
Proof.
  intros Hgood Hd. induction Hgood as [|g good [b Hg] _ IH]; cbn.
  - by rewrite Hd.
  - by rewrite Hg, IH.
Qed.

(** On a non-empty list the first sum decides whether the call raises. *)
Lemma calculate_zone_risk_raises
    (ds : list (gmap string pyval)) (image_shape : list Q) (e : exn) :
  ds ≠ [] →
  count_where is_critical ds = Raise e →
  calculate_zone_risk ds image_shape = Raise e.
Proof.
  intros Hne He. destruct ds as [|d ds]; [done|].
  unfold calculate_zone_risk. by rewrite He.
Qed.

Lemma is_critical_unscored (d : gmap string pyval) :
  (¬ ∃ s, has_hazard_score d s) →
  (d !! "hazard_score" = None
   ∧ is_critical d = Raise (KeyError "hazard_score"))
  ∨ ((∃ t, d !! "hazard_score" = Some (VStr t))
     ∧ is_critical d = Raise TypeError).
Proof.
  intros Hd. unfold is_critical, hazard_of, getitem, has_hazard_score in *.
  destruct (d !! "hazard_score") as [[t|q]|] eqn:E.
  - right. split; [by exists t|done].
  - exfalso. apply Hd. by exists q.
  - by left.
Qed.

(** Either every record carries a number under [hazard_score], or there is a
    first one that does not. *)
Lemma first_unscored (ds : list (gmap string pyval)) :
  Forall (λ d, ∃ s, has_hazard_score d s) ds
  ∨ ∃ good d rest,
      ds = good ++ d :: rest
      ∧ Forall (λ d, ∃ s, has_hazard_score d s) good
      ∧ ¬ ∃ s, has_hazard_score d s.
Proof.
  induction ds as [|d ds IH]; [by left|].
  assert ((∃ s, has_hazard_score d s) ∨ ¬ ∃ s, has_hazard_score d s)
    as [Hd|Hd].
  { unfold has_hazard_score.
    destruct (d !! "hazard_score") as [[t|q]|];
      [right; intros [s [=]]|left; by exists q|right; intros [s [=]]]. }
  - destruct IH as [IH|(good & d' & rest & -> & Hgood & Hd')].
    + left. by constructor.
    + right. exists (d :: good), d', rest. repeat split; [by constructor|done].
  - right. exists [], d, ds. repeat split; [constructor|done].
Qed.

Lemma scored_is_critical_ok (good : list (gmap string pyval)) :
  Forall (λ d, ∃ s, has_hazard_score d s) good →
  Forall (λ d, ∃ b, is_critical d = Ok b) good.
Proof.
  induction 1 as [|d good [s Hs] _ IH]; constructor; [|done].
  eexists. by apply is_critical_score.
Qed.

Lemma calculate_zone_risk_inv
    (ds : list (gmap string pyval)) (image_shape : list Q)
    (r : gmap string pyval) :
  calculate_zone_risk ds image_shape = Ok r →
  Forall (λ d, ∃ s, has_hazard_score d s) ds.
Proof.
  intros Hr.
  destruct (first_unscored ds)
    as [|(good & d & rest & -> & Hgood & Hd)]; [done|].
  exfalso.
  assert (∃ e, is_critical d = Raise e) as [e He]
    by (destruct (is_critical_unscored d Hd) as [[_ ?]|[_ ?]]; by eexists).
  rewrite (calculate_zone_risk_raises _ _ e) in Hr; [done| |].
  - by destruct good.
  - apply count_where_raises; [by apply scored_is_critical_ok|done].
Qed.

(** X7. [calculate_zone_risk] returns a result exactly when every detection
    carries a number under the key [hazard_score] (the empty list included);
    the image shape plays no part. *)
Theorem zone_risk_returns_iff_all_scored
    (detections : list (gmap string pyval)) (image_shape : list Q) :
  (∃ r, calculate_zone_risk detections image_shape = Ok r)
  ↔ Forall (λ d, ∃ s, has_hazard_score d s) detections.
Proof.
  split.
  - intros [r Hr]. by apply calculate_zone_risk_inv in Hr.
  - intros Hall. destruct (decide (detections = [])) as [->|Hne].
    + by eexists.
    + eexists. apply calculate_zone_risk_ok; [done|].
      by apply Forall2_score_value.
Qed.

(** X8. The first detection without a numeric [hazard_score] decides the
    exception: [KeyError] when the key is missing, [TypeError] when the value
    is a string; what follows it in the list is not looked at. *)
Theorem zone_risk_first_bad_record_decides
    (good : list (gmap string pyval)) (d : gmap string pyval)
    (rest : list (gmap string pyval)) (image_shape : list Q) :
  Forall (λ d, ∃ s, has_hazard_score d s) good →
  (d !! "hazard_score" = None →
   calculate_zone_risk (good ++ d :: rest) image_shape
   = Raise (KeyError "hazard_score"))
  ∧ (∀ t, d !! "hazard_score" = Some (VStr t) →
     calculate_zone_risk (good ++ d :: rest) image_shape = Raise TypeError).
Proof.
  intros Hgood.
  assert (good ++ d :: rest ≠ []) as Hne by (by destruct good).
  split.
  - intros Hd. apply calculate_zone_risk_raises; [done|].
    apply count_where_raises; [by apply scored_is_critical_ok|].
    unfold is_critical, hazard_of, getitem. by rewrite Hd.
  - intros t Hd. apply calculate_zone_risk_raises; [done|].
    apply count_where_raises; [by apply scored_is_critical_ok|].
    unfold is_critical, hazard_of, getitem. by rewrite Hd.
Qed.

Lemma zone_risk_first_bad_record_decides_witness :
  calculate_zone_risk
    [detection 85; {[ "score" := VNum 62 ]}; {[ "hazard_score" := VStr "30" ]}]
    [1000; 1000; 3]
  = Raise (KeyError "hazard_score")
  ∧ calculate_zone_risk
      [detection 85; {[ "hazard_score" := VStr "30" ]}; {[ "score" := VNum 62 ]}]
      [1000; 1000; 3]
    = Raise TypeError.
Proof.
  split.
  - apply (zone_risk_first_bad_record_decides
             [detection 85] {[ "score" := VNum 62 ]}
             [{[ "hazard_score" := VStr "30" ]}] [1000; 1000; 3]).
    + repeat constructor. by exists 85.
    + reflexivity.
  - apply (zone_risk_first_bad_record_decides
             [detection 85] {[ "hazard_score" := VStr "30" ]}
             [{[ "score" := VNum 62 ]}] [1000; 1000; 3]) with (t := "30").
    + repeat constructor. by exists 85.
    + reflexivity.
Defined.

(** Every score lies in exactly one of the four buckets. *)
Lemma count_scores_partition (ss : list Q) :
  (count_scores (Qle_bool 80) ss + count_scores (in_bucket 60 80) ss
   + count_scores (in_bucket 40 60) ss
   + count_scores (λ s, negb (Qle_bool 40 s)) ss)%Z
  = Z.of_nat (length ss).
Proof.
  unfold in_bucket. induction ss as [|s ss IH]; [done|].
  cbn [count_scores length].
  destruct (Qle_bool 80 s) eqn:E80, (Qle_bool 60 s) eqn:E60,
           (Qle_bool 40 s) eqn:E40; cbn [andb negb]; try lia;
    exfalso; rewrite ?Qle_bool_iff, ?Qle_bool_false in *; lra.
Qed.

(** X9. For a non-empty list of scored detections the three counts of the
    result are the numbers of scores in [80, ∞), [60, 80) and [40, 60);
    together with the number of scores below 40 they add up to
    [total_objects], the length of the list. *)
Theorem zone_risk_counts_partition_total
    (detections : list (gmap string pyval)) (scores : list Q)
    (image_shape : list Q) :
  detections ≠ [] →
  Forall2 has_hazard_score detections scores →
  ∃ (r : gmap string pyval) (critical high medium low : Z),
    calculate_zone_risk detections image_shape = Ok r
    ∧ r !! "critical_objects" = Some (VNum (inject_Z critical))
    ∧ r !! "high_risk_objects" = Some (VNum (inject_Z high))
    ∧ r !! "medium_risk_objects" = Some (VNum (inject_Z medium))
    ∧ r !! "total_objects"
      = Some (VNum (inject_Z (Z.of_nat (length detections))))
    ∧ critical = count_scores (λ s, Qle_bool 80 s) scores
    ∧ high = count_scores (λ s, Qle_bool 60 s && negb (Qle_bool 80 s)) scores
    ∧ medium = count_scores (λ s, Qle_bool 40 s && negb (Qle_bool 60 s)) scores
    ∧ low = count_scores (λ s, negb (Qle_bool 40 s)) scores
    ∧ (0 ≤ critical ∧ 0 ≤ high ∧ 0 ≤ medium ∧ 0 ≤ low)%Z
    ∧ (critical + high + medium + low)%Z = Z.of_nat (length detections).
Proof.
  intros Hne Hscores.
  rewrite (calculate_zone_risk_ok _ scores) by done.
  destruct (zone_report_lookup (count_scores (Qle_bool 80) scores)
              (count_scores (in_bucket 60 80) scores)
              (count_scores (in_bucket 40 60) scores)
              (round (max_score scores) 2) (length scores))
    as (_ & _ & Hc & Hh & Hm & Ht).
  rewrite (Forall2_length _ _ _ Hscores).
  eexists _, _, _, _, _. split; [reflexivity|].
  split; [exact Hc|]. split; [exact Hh|]. split; [exact Hm|].
  split; [exact Ht|]. do 4 (split; [reflexivity|]).
  split; [repeat split; apply count_scores_nonneg|].
  apply count_scores_partition.
Qed.

Lemma zone_risk_counts_partition_total_witness :
  ∃ (r : gmap string pyval) (critical high medium low : Z),
    calculate_zone_risk [detection 85; detection 62; detection 30; detection 12]
                        [1000; 1000; 3] = Ok r
    ∧ r !! "critical_objects" = Some (VNum (inject_Z critical))
    ∧ r !! "total_objects" = Some (VNum (inject_Z 4))
    ∧ low = 2%Z
    ∧ (critical + high + medium + low)%Z = 4%Z.
Proof.
  destruct (zone_risk_counts_partition_total
              [detection 85; detection 62; detection 30; detection 12]
              [85; 62; 30; 12] [1000; 1000; 3])
    as (r & c & h & m & l & Hr & Hc & _ & _ & Ht & _ & _ & _ & Hl & _ & Hsum).
  - discriminate.
  - repeat constructor.
  - exists r, c, h, m, l. repeat split; done.
Defined.

(** The level the scorer's cascade gives to the greatest score decides which
    of the counts is the first positive one. *)
Lemma bucket_counts_of_max (ss : list Q) :
  ss ≠ [] →
  (if (0 <? count_scores (Qle_bool 80) ss)%Z then "CRITICAL"
   else if (0 <? count_scores (in_bucket 60 80) ss)%Z then "HIGH"
   else if (0 <? count_scores (in_bucket 40 60) ss)%Z then "MEDIUM"
   else "LOW")
  = (classify (max_score ss)).1.1.1.
Proof.
  intros Hne. destruct (max_score_spec ss Hne) as [Hin Hub].
  set (m := max_score ss) in *.
  assert (∀ p : Q → bool, (0 <? count_scores p ss)%Z = true
                          ↔ ∃ s, s ∈ ss ∧ p s = true) as Hpos
    by (intros p; rewrite Z.ltb_lt; apply count_scores_pos).
  assert (∀ p : Q → bool, (0 <? count_scores p ss)%Z = false
                          ↔ ∀ s, s ∈ ss → p s = false) as Hzero.
  { intros p. rewrite <- not_true_iff_false, Hpos. split.
    - intros Hno s Hs. destruct (p s) eqn:E; [|done].
      exfalso. apply Hno. by exists s.
    - intros Hall (s & Hs & Hp). rewrite (Hall s Hs) in Hp. done. }
  unfold classify.
  destruct (Qle_bool 80 m) eqn:E80.
  { assert ((0 <? count_scores (Qle_bool 80) ss)%Z = true) as ->; [|done].
    apply Hpos. by exists m. }
  assert ((0 <? count_scores (Qle_bool 80) ss)%Z = false) as ->.
  { apply Hzero. intros s Hs. apply Qle_bool_false.
    apply Qle_bool_false in E80. specialize (Hub s Hs). lra. }
  destruct (Qle_bool 60 m) eqn:E60.
  { assert ((0 <? count_scores (in_bucket 60 80) ss)%Z = true) as ->; [|done].
    apply Hpos. exists m. split; [done|]. unfold in_bucket. by rewrite E60, E80. }
  assert ((0 <? count_scores (in_bucket 60 80) ss)%Z = false) as ->.
  { apply Hzero. intros s Hs. unfold in_bucket.
    assert (Qle_bool 60 s = false) as ->; [|done].
    apply Qle_bool_false. apply Qle_bool_false in E60.
    specialize (Hub s Hs). lra. }
  destruct (Qle_bool 40 m) eqn:E40.
  { assert ((0 <? count_scores (in_bucket 40 60) ss)%Z = true) as ->; [|done].
    apply Hpos. exists m. split; [done|]. unfold in_bucket. by rewrite E40, E60. }
  assert ((0 <? count_scores (in_bucket 40 60) ss)%Z = false) as ->; [|done].
  apply Hzero. intros s Hs. unfold in_bucket.
  assert (Qle_bool 40 s = false) as ->; [|done].
  apply Qle_bool_false. apply Qle_bool_false in E40.
  specialize (Hub s Hs). lra.
Qed.

(** X10. For a non-empty list of scored detections, [overall_risk] is the
    level that the cascade of [calculate_hazard_score] assigns to the
    greatest score, and [max_hazard_score] is that greatest score rounded to
    two decimals. *)
Theorem overall_risk_is_level_of_greatest_score
    (detections : list (gmap string pyval)) (scores : list Q)
    (image_shape : list Q) :
  detections ≠ [] →
  Forall2 has_hazard_score detections scores →
  ∃ (r : gmap string pyval) (greatest : Q),
    calculate_zone_risk detections image_shape = Ok r
    ∧ greatest ∈ scores
    ∧ (∀ s, s ∈ scores → s <= greatest)
    ∧ r !! "max_hazard_score" = Some (VNum (round greatest 2))
    ∧ r !! "overall_risk" = Some (VStr (classify greatest).1.1.1).
Proof.
  intros Hne Hscores.
  assert (scores ≠ []) as Hne' by (destruct Hscores; done).
  rewrite (calculate_zone_risk_ok _ scores) by done.
  destruct (max_score_spec scores Hne') as [Hin Hub].
  destruct (zone_report_lookup (count_scores (Qle_bool 80) scores)
              (count_scores (in_bucket 60 80) scores)
              (count_scores (in_bucket 40 60) scores)
              (round (max_score scores) 2) (length scores))
    as (Hrisk & Hmax & _).
  exists (zone_report_of scores), (max_score scores).
  split; [reflexivity|]. split; [done|]. split; [done|].
  split; [exact Hmax|].
  rewrite <- (bucket_counts_of_max scores Hne'). exact Hrisk.
Qed.

Lemma overall_risk_is_level_of_greatest_score_witness :
  ∃ (r : gmap string pyval) (greatest : Q),
    calculate_zone_risk [detection 30; detection 62; detection 41]
                        [1000; 1000; 3] = Ok r
    ∧ greatest ∈ [30; 62; 41]
    ∧ (∀ s, s ∈ [30; 62; 41] → s <= greatest)
    ∧ r !! "max_hazard_score" = Some (VNum (round greatest 2))
    ∧ r !! "overall_risk" = Some (VStr (classify greatest).1.1.1).
Proof.
  apply (overall_risk_is_level_of_greatest_score
           [detection 30; detection 62; detection 41] [30; 62; 41]).
  - discriminate.
  - repeat constructor.
Defined.

(** X11. The two branches of [calculate_zone_risk] return dicts with
    different keys: the result for an empty list has [high_priority_objects]
    but no [high_risk_objects], [medium_risk_objects] or [total_objects];
    the result for a non-empty list has these three and no
    [high_priority_objects]. *)
Theorem zone_risk_result_keys_depend_on_emptiness
    (detections : list (gmap string pyval)) (image_shape : list Q)
    (r : gmap string pyval) :
  calculate_zone_risk detections image_shape = Ok r →
  (detections = [] →
   r !! "high_priority_objects" = Some (VNum 0)
   ∧ r !! "high_risk_objects" = None
   ∧ r !! "medium_risk_objects" = None
   ∧ r !! "total_objects" = None)
  ∧ (detections ≠ [] →
     r !! "high_priority_objects" = None
     ∧ is_Some (r !! "high_risk_objects")
     ∧ is_Some (r !! "medium_risk_objects")
     ∧ is_Some (r !! "total_objects")).
Proof.
  intros Hr. split.
  - intros ->. injection Hr as <-. repeat split.
  - intros Hne. pose proof (calculate_zone_risk_inv _ _ _ Hr) as Hall.
    rewrite (calculate_zone_risk_ok _ (score_value <$> detections)) in Hr;
      [|done|by apply Forall2_score_value].
    injection Hr as <-. unfold zone_report_of, zone_report.
    repeat case_match; repeat split; by eexists.
Qed.

Lemma zone_risk_result_keys_depend_on_emptiness_witness :
  zone_report_of [85; 30] !! "high_priority_objects" = None
  ∧ is_Some (zone_report_of [85; 30] !! "total_objects").
Proof.
  destruct (zone_risk_result_keys_depend_on_emptiness
              [detection 85; detection 30] [1000; 1000; 3]
              (zone_report_of [85; 30])) as [_ Hkeys].
  - apply calculate_zone_risk_ok; [discriminate|repeat constructor].
  - destruct Hkeys as (H1 & _ & _ & H4); [discriminate|]. by split.
Defined.

(** X12. Fed with the result of [calculate_zone_risk] on scored detections,
    [generate_alert_message] never raises and never falls back to
    "Status unknown": it returns the entry of [alerts] for the
    [overall_risk] of the result. *)
Theorem alert_for_zone_risk_is_a_table_entry
    (detections : list (gmap string pyval)) (scores : list Q)
    (image_shape : list Q) :
  Forall2 has_hazard_score detections scores →
  ∃ (z : gmap string pyval) (risk msg : string),
    calculate_zone_risk detections image_shape = Ok z
    ∧ z !! "overall_risk" = Some (VStr risk)
    ∧ generate_alert_message z = Ok msg
    ∧ alerts !! risk = Some msg
    ∧ msg ≠ "Status unknown".
Proof.
  intros Hscores.
  assert (∀ (z : gmap string pyval) (risk : string),
            z !! "overall_risk" = Some (VStr risk) →
            risk ∈ ["SAFE"; "CRITICAL"; "HIGH"; "MEDIUM"; "LOW"] →
            ∃ msg, generate_alert_message z = Ok msg
                   ∧ alerts !! risk = Some msg
                   ∧ msg ≠ "Status unknown") as Halert.
  { intros z risk Hz Hin. unfold generate_alert_message, getitem. rewrite Hz.
    cbn [mbind result_bind mret result_ret].
    repeat (apply elem_of_cons in Hin as [->|Hin];
            [eexists; split; [reflexivity|]; split; [reflexivity|discriminate]|]).
    by apply elem_of_nil in Hin. }
  destruct (decide (detections = [])) as [->|Hne].
  - destruct (Halert {[ "overall_risk" := VStr "SAFE";
                        "max_hazard_score" := VNum 0;
                        "critical_objects" := VNum 0;
                        "high_priority_objects" := VNum 0;
                        "recommendation" :=
                          VStr "No objects detected. Safe to proceed." ]}
                     "SAFE") as (msg & Hmsg & Htab & Hne);
      [reflexivity|left|].
    by eexists _, _, msg.
  - rewrite (calculate_zone_risk_ok _ scores) by done.
    destruct (zone_report_lookup (count_scores (Qle_bool 80) scores)
                (count_scores (in_bucket 60 80) scores)
                (count_scores (in_bucket 40 60) scores)
                (round (max_score scores) 2) (length scores)) as [Hrisk _].
    destruct (Halert _ _ Hrisk) as (msg & Hmsg & Htab & Hunk).
    { repeat case_match; rewrite !elem_of_cons; tauto. }
    by eexists _, _, msg.
Qed.

Lemma alert_for_zone_risk_is_a_table_entry_witness :
  ∃ (z : gmap string pyval) (risk msg : string),
    calculate_zone_risk [detection 45; detection 12] [1000; 1000; 3] = Ok z
    ∧ z !! "overall_risk" = Some (VStr risk)
    ∧ generate_alert_message z = Ok msg
    ∧ alerts !! risk = Some msg
    ∧ msg ≠ "Status unknown".
Proof.
  apply (alert_for_zone_risk_is_a_table_entry
           [detection 45; detection 12] [45; 12]).
  repeat constructor.
Defined.

(** * Properties of the scorer in [main.py] *)

Lemma main_calculate_hazard_score_ok
    (x1 y1 x2 y2 h w : Q) (rest : list Q) (c : option string) :
  ¬ h * w == 0 →
  main.calculate_hazard_score [x1; y1; x2; y2] (h :: w :: rest) c
  = Ok (main_record (main_final_score x1 y1 x2 y2 h w c)).
Proof.
  intros Harea.
  assert (¬ h == 0) as Hh by (intros E; apply Harea; rewrite E; ring).
  unfold main.calculate_hazard_score, unpack4, unpack2.
  change (take 2 (h :: w :: rest)) with [h; w].
  cbn [mbind result_bind].
  rewrite (truediv_ok _ _ Harea). cbn [mbind result_bind].
  rewrite (truediv_ok _ _ Hh). cbn [mbind result_bind].
  unfold main_record, main_final_score.
  by destruct (main.classify _) as [l d].
Qed.

Lemma main_record_lookup (score : Q) :
  main_record score !! "score" = Some (VNum (round score 2))
  ∧ main_record score !! "level" = Some (VStr (main.classify score).1)
  ∧ main_record score !! "estimated_distance"
    = Some (VStr (main.classify score).2)
  ∧ main_record score !! "priority" = None
  ∧ main_record score !! "color_code" = None
  ∧ main_record score !! "recommended_action" = None.
Proof.
  unfold main_record. destruct (main.classify score) as [l d]. repeat split.
Qed.

(** The class name reaches the result only through the weight. *)
Lemma main_calculate_hazard_score_same_weight
    (bbox image_shape : list Q) (c c' : option string) :
  main.weight_of c = main.weight_of c' →
  main.calculate_hazard_score bbox image_shape c
  = main.calculate_hazard_score bbox image_shape c'.
Proof. intros Hw. unfold main.calculate_hazard_score. by rewrite Hw. Qed.

Lemma main_weight_of_range (c : option string) :
  0.35 <= main.weight_of c ∧ main.weight_of c <= 1.
Proof.
  destruct c as [c|]; [|done]. unfold main.weight_of.
  case_bool_decide; [done|].
  unfold dict_get, main.class_weights.
  repeat (rewrite lookup_insert; case_decide; [done|]).
  rewrite lookup_singleton. by case_decide.
Qed.

Lemma multiplier_of_at_least_1 (c : string) :
  lower c ∉ ["vehicle"; "car"; "truck"] → 1 <= multiplier_of c.
Proof.
  intros Hveh. rewrite multiplier_of_spec. unfold spec_multiplier.
  repeat case_bool_decide; done.
Qed.

(** X13. The scorer of the service layer, on a box inside an image of
    positive area: it returns a record whose score lies between 0 and 100,
    with the keys [score], [level] and [estimated_distance] and without the
    keys [priority], [color_code] and [recommended_action] that the record of
    [hazard_scoring.calculate_hazard_score] has. *)
Theorem main_score_within_0_100_three_keys
    (x1 y1 x2 y2 h w : Q) (rest : list Q) (class_name : option string) :
  0 <= x1 → x1 <= x2 → x2 <= w → 0 <= y1 → y1 <= y2 → y2 <= h →
  0 < h * w →
  ∃ (r : gmap string pyval) (s : Q),
    main.calculate_hazard_score [x1; y1; x2; y2] (h :: w :: rest) class_name
    = Ok r
    ∧ r !! "score" = Some (VNum s)
    ∧ 0 <= s ∧ s <= 100
    ∧ is_Some (r !! "level")
    ∧ is_Some (r !! "estimated_distance")
    ∧ r !! "priority" = None
    ∧ r !! "color_code" = None
    ∧ r !! "recommended_action" = None.
Proof.
  intros Hx1 Hx12 Hx2 Hy1 Hy12 Hy2 Harea.
  rewrite main_calculate_hazard_score_ok by lra.
  destruct (main_record_lookup (main_final_score x1 y1 x2 y2 h w class_name))
    as (Hs & Hl & Hd & Hp & Hc & Ha).
  eexists _, _. split; [reflexivity|]. split; [exact Hs|].
  assert (0 < h) as Hh by (apply (positive_height h w y2); lra).
  destruct (main_weight_of_range class_name) as [Hw0 Hw1].
  assert (0 <= (x2 - x1) * (y2 - y1) / (h * w))
    by (apply Qdiv_nonneg; [apply Qmult_le_0_compat; lra|done]).
  assert (0 <= y2 / h) by (apply Qdiv_nonneg; lra).
  split; [|split; [|by repeat split]].
  - apply (round_2_lower 0). unfold main_final_score.
    apply Q.min_glb; [|done]. apply Qmult_le_0_compat; lra.
  - apply (round_2_upper 100). apply Q.le_min_r.
Qed.

Lemma main_score_within_0_100_three_keys_witness :
  ∃ (r : gmap string pyval) (s : Q),
    main.calculate_hazard_score [120; 300; 480; 700] [720; 1280; 3] (Some "dog")
    = Ok r
    ∧ r !! "score" = Some (VNum s)
    ∧ 0 <= s ∧ s <= 100
    ∧ is_Some (r !! "level")
    ∧ is_Some (r !! "estimated_distance")
    ∧ r !! "priority" = None
    ∧ r !! "color_code" = None
    ∧ r !! "recommended_action" = None.
Proof.
  apply (main_score_within_0_100_three_keys
           120 300 480 700 720 1280 [3] (Some "dog"));
    vm_compute; congruence.
Defined.

(** X14. In the scorer of the service layer a missing class name ([None]),
    the empty name and every name whose lowercase form is not in
    [class_weights] are weighted 0.7 and give the same result; a name that is
    a key of [class_weights] in any mix of upper and lower case has the
    weight of that key, and two names with the same lowercase form give the
    same result. *)
Theorem main_unknown_class_weighs_0_7
    (bbox image_shape : list Q) (class_name class_name' : string) :
  main.weight_of None = 0.7
  ∧ main.calculate_hazard_score bbox image_shape (Some "")
    = main.calculate_hazard_score bbox image_shape None
  ∧ (∀ (key : string) (weight : Q),
       main.class_weights !! key = Some weight →
       case_variant class_name key →
       main.weight_of (Some class_name) = weight)
  ∧ (main.class_weights !! lower class_name = None →
     main.calculate_hazard_score bbox image_shape (Some class_name)
     = main.calculate_hazard_score bbox image_shape None)
  ∧ (lower class_name = lower class_name' →
     main.calculate_hazard_score bbox image_shape (Some class_name)
     = main.calculate_hazard_score bbox image_shape (Some class_name')).
Proof.
  split; [reflexivity|]. split; [reflexivity|]. split; [|split].
  - intros key weight Hkey Hvar. unfold main.weight_of, dict_get.
    rewrite (lower_case_variant class_name key Hvar), Hkey.
    case_bool_decide as Hemp; [|done].
    subst class_name. destruct key; [done|destruct Hvar].
  - intros Hnone. apply main_calculate_hazard_score_same_weight.
    unfold main.weight_of, dict_get. rewrite Hnone. by case_bool_decide.
  - intros Heq. apply main_calculate_hazard_score_same_weight.
    unfold main.weight_of. rewrite Heq.
    assert (class_name = "" ↔ class_name' = "") as Hemp.
    { split; intros ->; apply lower_nil_inv; [by rewrite <- Heq|by rewrite Heq]. }
    repeat case_bool_decide; tauto.
Qed.

Lemma main_unknown_class_weighs_0_7_witness :
  (main.class_weights !! lower "Drone" = None
   ∧ main.calculate_hazard_score [0; 0; 100; 100] [1000; 1000; 3] (Some "Drone")
     = main.calculate_hazard_score [0; 0; 100; 100] [1000; 1000; 3] None)
  ∧ (main.class_weights !! "truck" = Some 0.98
     ∧ case_variant "TRUCK" "truck"
     ∧ main.weight_of (Some "TRUCK") = 0.98).
Proof.
  assert (main.class_weights !! lower "Drone" = None) as Hnone by reflexivity.
  assert (main.class_weights !! "truck" = Some 0.98) as Hkey by reflexivity.
  assert (case_variant "TRUCK" "truck") as Hvar
    by (vm_compute; repeat split; first [by left|by right|lia]).
  split.
  - split; [exact Hnone|].
    by apply (main_unknown_class_weighs_0_7
                [0; 0; 100; 100] [1000; 1000; 3] "Drone" "Drone").
  - split; [exact Hkey|]. split; [exact Hvar|].
    destruct (main_unknown_class_weighs_0_7
                [0; 0; 100; 100] [1000; 1000; 3] "TRUCK" "TRUCK")
      as (_ & _ & Hpin & _).
    by apply (Hpin "truck" 0.98).
Defined.

(** X15. The two scorers compared on the same box inside an image of
    positive area: for every class name whose lowercase form is not vehicle,
    car or truck the score of [hazard_scoring.calculate_hazard_score]
    is at least the score of the scorer in [main.py]. *)
Theorem hazard_scoring_scores_at_least_main
    (x1 y1 x2 y2 h w : Q) (rest : list Q) (class_name : string) :
  0 <= x1 → x1 <= x2 → x2 <= w → 0 <= y1 → y1 <= y2 → y2 <= h →
  0 < h * w →
  lower class_name ∉ ["vehicle"; "car"; "truck"] →
  ∃ (r r' : gmap string pyval) (s s' : Q),
    main.calculate_hazard_score [x1; y1; x2; y2] (h :: w :: rest)
                                (Some class_name) = Ok r
    ∧ calculate_hazard_score [x1; y1; x2; y2] (h :: w :: rest) class_name
      = Ok r'
    ∧ r !! "score" = Some (VNum s)
    ∧ r' !! "score" = Some (VNum s')
    ∧ s <= s'.
Proof.
  intros Hx1 Hx12 Hx2 Hy1 Hy12 Hy2 Harea Hveh.
  rewrite main_calculate_hazard_score_ok, calculate_hazard_score_ok by lra.
  eexists _, _, _, _. split; [reflexivity|]. split; [reflexivity|].
  split; [apply main_record_lookup|]. split; [apply hazard_record_lookup|].
  apply round_2_mono. unfold main_final_score, final_score_of.
  assert (0 < h) as Hh by (apply (positive_height h w y2); lra).
  destruct (main_weight_of_range (Some class_name)) as [Hw0 Hw1].
  pose proof (multiplier_of_at_least_1 class_name Hveh) as Hm.
  assert (0 <= (x2 - x1) * (y2 - y1) / (h * w))
    by (apply Qdiv_nonneg; [apply Qmult_le_0_compat; lra|done]).
  assert (0 <= y2 / h) by (apply Qdiv_nonneg; lra).
  set (b := (x2 - x1) * (y2 - y1) / (h * w) * 700 + y2 / h * 30) in *.
  assert (0 <= b) as Hb by (unfold b; lra).
  set (wt := main.weight_of (Some class_name)) in *.
  set (m := multiplier_of class_name) in *.
  apply Q.min_glb; [|apply Q.le_min_r].
  destruct (Q.min_spec b 100) as [[Hlt ->]|[Hge ->]].
  - apply Qle_trans with (b * wt); [apply Q.le_min_l|]. nra.
  - apply Qle_trans with 100; [apply Q.le_min_r|]. nra.
Qed.

Lemma hazard_scoring_scores_at_least_main_witness :
  ∃ (r r' : gmap string pyval) (s s' : Q),
    main.calculate_hazard_score [120; 300; 480; 700] [720; 1280; 3]
                                (Some "Dog") = Ok r
    ∧ calculate_hazard_score [120; 300; 480; 700] [720; 1280; 3] "Dog" = Ok r'
    ∧ r !! "score" = Some (VNum s)
    ∧ r' !! "score" = Some (VNum s')
    ∧ s <= s'.
Proof.
  apply (hazard_scoring_scores_at_least_main
           120 300 480 700 720 1280 [3] "Dog");
    try (vm_compute; congruence).
  intros Hin.
  repeat (apply elem_of_cons in Hin as [Hin|Hin]; [discriminate Hin|]).
  by apply elem_of_nil in Hin.
Defined.

(** * Properties of [YOLODetector.detect_video_frames] *)

Section read_loop.

Context {frame D : Type} (detect_image : frame → result (list D)).
Context (n fps : Z).

Local Abbreviation loop := (YOLODetector.read_loop detect_image n fps).
Local Abbreviation frame_number := YOLODetector.frame_number.
Local Abbreviation detections := YOLODetector.detections.
Local Abbreviation timestamp := YOLODetector.timestamp.

(** One iteration, for a step that is not zero. *)
Lemma read_loop_step (idx : Z) (f : frame) (rest : list frame)
    (acc : list (YOLODetector.frame_result D)) :
  n ≠ 0%Z →
  loop idx (f :: rest) acc
  = if (idx mod n =? 0)%Z then
      match detect_image f with
      | Raise e => Raise e
      | Ok [] => loop (idx + 1)%Z rest acc
      | Ok (d :: ds) =>
          if Qeq_bool (inject_Z fps) 0 then Raise ZeroDivisionError
          else loop (idx + 1)%Z rest
                 (acc ++ [{| YOLODetector.frame_number := idx;
                             YOLODetector.timestamp :=
                               round (inject_Z idx / inject_Z fps) 2;
                             YOLODetector.detections := d :: ds |}])
      end
    else loop (idx + 1)%Z rest acc.
Proof.
  intros Hn. cbn [YOLODetector.read_loop]. unfold YOLODetector.py_mod.
  apply Z.eqb_neq in Hn. rewrite Hn. cbn [mbind result_bind].
  destruct (idx mod n =? 0)%Z; [|done].
  destruct (detect_image f) as [[|d ds]|e]; cbn [mbind result_bind]; try done.
  unfold truediv. by destruct (Qeq_bool (inject_Z fps) 0).
Qed.

(** What the loop appends: entries for sampled frames that have detections,
    in the order of the frames. *)
Lemma read_loop_sound (rest : list frame) :
  n ≠ 0%Z →
  ∀ (idx : Z) (acc res : list (YOLODetector.frame_result D)),
    loop idx rest acc = Ok res →
    ∃ new,
      res = acc ++ new
      ∧ Forall (λ fr,
          (idx ≤ frame_number fr < idx + Z.of_nat (length rest))%Z
          ∧ (frame_number fr mod n = 0)%Z
          ∧ detections fr ≠ []
          ∧ (∃ f, rest !! Z.to_nat (frame_number fr - idx) = Some f
                  ∧ detect_image f = Ok (detections fr))
          ∧ fps ≠ 0%Z
          ∧ timestamp fr
            = round (inject_Z (frame_number fr) / inject_Z fps) 2) new
      ∧ StronglySorted (λ a b, (frame_number a < frame_number b)%Z) new.
Proof.
  intros Hn. induction rest as [|f rest IH]; intros idx acc res.
  - intros [= <-]. exists []. rewrite app_nil_r. repeat constructor.
  - rewrite read_loop_step by done.
    assert (∀ new,
      Forall (λ fr,
          (idx + 1 ≤ frame_number fr < idx + 1 + Z.of_nat (length rest))%Z
          ∧ (frame_number fr mod n = 0)%Z
          ∧ detections fr ≠ []
          ∧ (∃ f, rest !! Z.to_nat (frame_number fr - (idx + 1)) = Some f
                  ∧ detect_image f = Ok (detections fr))
          ∧ fps ≠ 0%Z
          ∧ timestamp fr
            = round (inject_Z (frame_number fr) / inject_Z fps) 2) new →
      Forall (λ fr,
          (idx ≤ frame_number fr < idx + Z.of_nat (length (f :: rest)))%Z
          ∧ (frame_number fr mod n = 0)%Z
          ∧ detections fr ≠ []
          ∧ (∃ f', (f :: rest) !! Z.to_nat (frame_number fr - idx) = Some f'
                   ∧ detect_image f' = Ok (detections fr))
          ∧ fps ≠ 0%Z
          ∧ timestamp fr
            = round (inject_Z (frame_number fr) / inject_Z fps) 2) new)
      as Hshift.
    { intros new Hnew. eapply Forall_impl; [exact Hnew|].
      intros fr (Hrange & Hmod & Hdet & (f' & Hf' & Hdi) & Hfps & Hts).
      cbn [length]. repeat split; try done; try lia.
      exists f'. split; [|done].
      replace (Z.to_nat (frame_number fr - idx))
        with (S (Z.to_nat (frame_number fr - (idx + 1)))) by lia.
      done. }
    destruct (idx mod n =? 0)%Z eqn:Emod.
    + destruct (detect_image f) as [[|d ds]|e] eqn:Edi; [| |intros [=]].
      * intros (new & -> & Hnew & Hsorted)%IH.
        exists new. split; [done|]. split; [by apply Hshift|done].
      * destruct (Qeq_bool (inject_Z fps) 0) eqn:Efps; [intros [=]|].
        intros (new & -> & Hnew & Hsorted)%IH.
        eexists (_ :: new). split; [by rewrite <- app_assoc|].
        assert (fps ≠ 0%Z) as Hfps.
        { intros ->. by apply Qeq_bool_neq in Efps. }
        split; [constructor; [|by apply Hshift]|].
        -- cbn [YOLODetector.frame_number YOLODetector.detections
                YOLODetector.timestamp length].
           apply Z.eqb_eq in Emod.
           split; [lia|]. split; [done|]. split; [done|].
           split; [|done]. exists f. split; [|done]. by rewrite Z.sub_diag.
        -- constructor; [done|].
           eapply Forall_impl; [exact Hnew|].
           intros fr (Hrange & _). cbn. lia.
    + intros (new & -> & Hnew & Hsorted)%IH.
      exists new. split; [done|]. split; [by apply Hshift|done].
Qed.

(** The loop returns when the step and the frame rate are not zero and the
    detector returns on every frame. *)
Lemma read_loop_returns (rest : list frame) :
  n ≠ 0%Z → fps ≠ 0%Z →
  Forall (λ f, ∃ ds, detect_image f = Ok ds) rest →
  ∀ (idx : Z) (acc : list (YOLODetector.frame_result D)),
    ∃ res, loop idx rest acc = Ok res.
Proof.
  intros Hn Hfps Hall.
  induction Hall as [|f rest [ds Hf] _ IH]; intros idx acc.
  - by eexists.
  - rewrite read_loop_step by done.
    destruct (idx mod n =? 0)%Z; [|apply IH].
    rewrite Hf. destruct ds as [|d ds]; [apply IH|].
    assert (Qeq_bool (inject_Z fps) 0 = false) as ->; [|apply IH].
    destruct (Qeq_bool (inject_Z fps) 0) eqn:E; [|done].
    apply Qeq_bool_iff in E. exfalso. apply Hfps.
    unfold Qeq in E. cbn in E. lia.
Qed.

(** No sampled frame with detections is left out. *)
Lemma read_loop_complete (rest : list frame) :
  n ≠ 0%Z →
  ∀ (idx : Z) (acc res : list (YOLODetector.frame_result D)),
    loop idx rest acc = Ok res →
    ∀ (i : nat) (f : frame) (ds : list D),
      rest !! i = Some f → ((idx + Z.of_nat i) mod n = 0)%Z →
      detect_image f = Ok ds → ds ≠ [] →
      ∃ fr, fr ∈ res
            ∧ frame_number fr = (idx + Z.of_nat i)%Z
            ∧ detections fr = ds.
Proof.
  intros Hn. induction rest as [|f0 rest IH]; intros idx acc res Hres i f ds.
  - intros [=].
  - rewrite read_loop_step in Hres by done.
    destruct i as [|i]; cbn [lookup list_lookup].
    + intros [= ->] Hmod Hdi Hds. rewrite Z.add_0_r in Hmod.
      apply Z.eqb_eq in Hmod. rewrite Hmod, Hdi in Hres.
      destruct ds as [|d ds]; [done|].
      destruct (Qeq_bool (inject_Z fps) 0); [discriminate Hres|].
      apply read_loop_sound in Hres as (new & -> & _); [|done].
      eexists. split; [|split].
      * apply elem_of_app. left. apply elem_of_app. right. left.
      * cbn. lia.
      * done.
    + intros Hi Hmod Hdi Hds.
      replace (idx + Z.of_nat (S i))%Z with (idx + 1 + Z.of_nat i)%Z in * by lia.
      destruct (idx mod n =? 0)%Z;
        [destruct (detect_image f0) as [[|d0 ds0]|e];
         [|destruct (Qeq_bool (inject_Z fps) 0)|]|];
        try discriminate Hres; by eapply IH.
Qed.

(** With a frame rate of zero the first sampled frame with detections makes
    the loop raise. *)
Lemma read_loop_zero_fps_raises (rest : list frame) :
  n ≠ 0%Z → fps = 0%Z →
  Forall (λ f, ∃ ds, detect_image f = Ok ds) rest →
  ∀ (idx : Z) (acc : list (YOLODetector.frame_result D))
    (i : nat) (f : frame) (ds : list D),
    rest !! i = Some f → ((idx + Z.of_nat i) mod n = 0)%Z →
    detect_image f = Ok ds → ds ≠ [] →
    loop idx rest acc = Raise ZeroDivisionError.
Proof.
  intros Hn Hfps Hall.
  induction Hall as [|f0 rest [ds0 Hf0] _ IH]; intros idx acc i f ds.
  - intros [=].
  - rewrite read_loop_step by done. rewrite Hf0.
    assert (Qeq_bool (inject_Z fps) 0 = true) as -> by (by rewrite Hfps).
    destruct i as [|i]; cbn [lookup list_lookup].
    + intros [= ->] Hmod Hdi Hds. rewrite Z.add_0_r in Hmod.
      apply Z.eqb_eq in Hmod. rewrite Hmod.
      rewrite Hf0 in Hdi. injection Hdi as ->. by destruct ds.
    + intros Hi Hmod Hdi Hds.
      replace (idx + Z.of_nat (S i))%Z with (idx + 1 + Z.of_nat i)%Z in * by lia.
      destruct (idx mod n =? 0)%Z; [destruct ds0|]; try done; by eapply IH.
Qed.

(** When no sampled frame has a detection nothing is appended, whatever the
    frame rate. *)
Lemma read_loop_no_detections (rest : list frame) :
  n ≠ 0%Z →
  ∀ (idx : Z) (acc : list (YOLODetector.frame_result D)),
    (∀ (i : nat) (f : frame),
       rest !! i = Some f → ((idx + Z.of_nat i) mod n = 0)%Z →
       detect_image f = Ok []) →
    loop idx rest acc = Ok acc.
Proof.
  intros Hn. induction rest as [|f0 rest IH]; intros idx acc Hnone; [done|].
  rewrite read_loop_step by done.
  assert (loop (idx + 1)%Z rest acc = Ok acc) as Hrest.
  { apply IH. intros i f Hi Hmod. apply (Hnone (S i) f Hi).
    by replace (idx + Z.of_nat (S i))%Z with (idx + 1 + Z.of_nat i)%Z by lia. }
  destruct (idx mod n =? 0)%Z eqn:Emod; [|done].
  rewrite (Hnone 0%nat f0); [done|done|].
  rewrite Z.add_0_r. by apply Z.eqb_eq.
Qed.

End read_loop.

(** Strictly increasing multiples of [n] below [L], none smaller than
    [lo * n]: there are at most [ceil(L / n) - lo] of them. *)
Lemma sorted_multiples_length {D : Type} (n L : Z)
    (l : list (YOLODetector.frame_result D)) :
  (0 < n)%Z →
  StronglySorted
    (λ a b, (YOLODetector.frame_number a < YOLODetector.frame_number b)%Z) l →
  ∀ lo : Z,
    Forall (λ fr, (YOLODetector.frame_number fr mod n = 0)%Z
                  ∧ (lo * n ≤ YOLODetector.frame_number fr < L)%Z) l →
    (Z.of_nat (length l) ≤ Z.max 0 ((L + n - 1) / n - lo))%Z.
Proof.
  intros Hn. induction 1 as [|x l Hsorted IH Hlt]; intros lo Hall.
  - cbn. lia.
  - apply Forall_cons in Hall as [[Hmod [Hlo HL]] Hall].
    set (k := (YOLODetector.frame_number x / n)%Z).
    assert (YOLODetector.frame_number x = k * n)%Z as Hx.
    { pose proof (Z.div_mod (YOLODetector.frame_number x) n). unfold k. lia. }
    assert (Z.of_nat (length l) ≤ Z.max 0 ((L + n - 1) / n - (k + 1)))%Z as Hl.
    { apply IH. apply Forall_forall. intros b Hb.
      rewrite Forall_forall in Hall, Hlt.
      destruct (Hall b Hb) as [Hbmod [_ HbL]]. specialize (Hlt b Hb).
      split; [done|]. split; [|done].
      pose proof (Z.div_mod (YOLODetector.frame_number b) n).
      assert (k < YOLODetector.frame_number b / n)%Z; nia. }
    assert (k + 1 ≤ (L + n - 1) / n)%Z as Hk.
    { pose proof (Z.div_mod (L + n - 1) n).
      pose proof (Z.mod_pos_bound (L + n - 1) n Hn). nia. }
    assert (lo ≤ k)%Z by nia.
    cbn [length]. lia.
Qed.

(** X16. Edge cases of [detect_video_frames].  A video that did not open
    raises [ValueError] whatever the other arguments.  An opened video that
    delivers no frame returns with no frame results, also for a step or a
    frame rate of zero.  With a step of zero the first frame raises
    [ZeroDivisionError], before the detector is called. *)
Theorem detect_video_frames_edge_cases
    {frame D : Type} (detect_image : frame → result (list D))
    (video_path : YOLODetector.video frame) (process_every_n_frames : Z) :
  (YOLODetector.is_opened video_path = false →
   YOLODetector.detect_video_frames detect_image video_path
     process_every_n_frames = Raise ValueError)
  ∧ (YOLODetector.is_opened video_path = true →
     YOLODetector.frames video_path = [] →
     YOLODetector.detect_video_frames detect_image video_path
       process_every_n_frames
     = Ok {| YOLODetector.total_frames :=
               YOLODetector.prop_frame_count video_path;
             YOLODetector.fps := YOLODetector.prop_fps video_path;
             YOLODetector.processed_frames := 0;
             YOLODetector.frame_results := [] |})
  ∧ (YOLODetector.is_opened video_path = true →
     YOLODetector.frames video_path ≠ [] →
     process_every_n_frames = 0%Z →
     YOLODetector.detect_video_frames detect_image video_path
       process_every_n_frames = Raise ZeroDivisionError).
Proof.
  unfold YOLODetector.detect_video_frames. split; [|split].
  - by intros ->.
  - by intros -> ->.
  - intros -> Hne ->. by destruct (YOLODetector.frames video_path).
Qed.

Lemma detect_video_frames_edge_cases_witness :
  YOLODetector.detect_video_frames (λ k : nat, Ok (replicate k "box"))
    {| YOLODetector.is_opened := true; YOLODetector.prop_frame_count := 3;
       YOLODetector.prop_fps := 30; YOLODetector.frames := [2; 0; 1]%nat |}
    0
  = Raise ZeroDivisionError.
Proof.
  apply (detect_video_frames_edge_cases (λ k : nat, Ok (replicate k "box"))
           {| YOLODetector.is_opened := true;
              YOLODetector.prop_frame_count := 3;
              YOLODetector.prop_fps := 30;
              YOLODetector.frames := [2; 0; 1]%nat |} 0);
    done.
Defined.

(** X17. For an opened video, a positive step, a frame rate that is not
    zero and a detector that returns on every frame, [detect_video_frames]
    returns.  [total_frames] and [fps] are the two properties read from the
    capture; [processed_frames] is the number of frame results, at most
    [ceil(frames read / step)].  Every frame result belongs to a frame that
    was read, whose index is a multiple of the step and on which the detector
    returned the non-empty list that is stored; its timestamp is less than a
    hundredth of a second away from [frame_number / fps]; frame numbers are
    strictly increasing. *)
Theorem detect_video_frames_keeps_sampled_frames_with_detections
    {frame D : Type} (detect_image : frame → result (list D))
    (video_path : YOLODetector.video frame) (process_every_n_frames : Z) :
  YOLODetector.is_opened video_path = true →
  (0 < process_every_n_frames)%Z →
  YOLODetector.prop_fps video_path ≠ 0%Z →
  Forall (λ f, ∃ ds, detect_image f = Ok ds) (YOLODetector.frames video_path) →
  ∃ res : YOLODetector.video_result D,
    YOLODetector.detect_video_frames detect_image video_path
      process_every_n_frames = Ok res
    ∧ YOLODetector.total_frames res = YOLODetector.prop_frame_count video_path
    ∧ YOLODetector.fps res = YOLODetector.prop_fps video_path
    ∧ YOLODetector.processed_frames res
      = Z.of_nat (length (YOLODetector.frame_results res))
    ∧ (YOLODetector.processed_frames res
       ≤ (Z.of_nat (length (YOLODetector.frames video_path))
          + process_every_n_frames - 1) / process_every_n_frames)%Z
    ∧ Forall (λ fr,
        (0 ≤ YOLODetector.frame_number fr
         < Z.of_nat (length (YOLODetector.frames video_path)))%Z
        ∧ (YOLODetector.frame_number fr mod process_every_n_frames = 0)%Z
        ∧ YOLODetector.detections fr ≠ []
        ∧ (∃ f, YOLODetector.frames video_path
                  !! Z.to_nat (YOLODetector.frame_number fr) = Some f
                ∧ detect_image f = Ok (YOLODetector.detections fr))
        ∧ Qabs (YOLODetector.timestamp fr
                - inject_Z (YOLODetector.frame_number fr)
                  / inject_Z (YOLODetector.prop_fps video_path)) < 1 # 100)
        (YOLODetector.frame_results res)
    ∧ StronglySorted
        (λ a b, (YOLODetector.frame_number a < YOLODetector.frame_number b)%Z)
        (YOLODetector.frame_results res).
Proof.
  intros Hopen Hn Hfps Hall.
  assert (process_every_n_frames ≠ 0%Z) as Hn' by lia.
  destruct (read_loop_returns detect_image process_every_n_frames
              (YOLODetector.prop_fps video_path)
              (YOLODetector.frames video_path) Hn' Hfps Hall 0%Z [])
    as [res Hres].
  pose proof (read_loop_sound _ _ _ _ Hn' _ _ _ Hres)
    as (new & Hnew & Hforall & Hsorted).
  cbn [app] in Hnew. subst new.
  unfold YOLODetector.detect_video_frames. rewrite Hopen, Hres.
  cbn [negb mbind result_bind mret result_ret].
  eexists. split; [reflexivity|].
  cbn [YOLODetector.total_frames YOLODetector.fps
       YOLODetector.processed_frames YOLODetector.frame_results].
  do 3 (split; [reflexivity|]). split; [|split; [|done]].
  - pose proof (sorted_multiples_length process_every_n_frames
                  (Z.of_nat (length (YOLODetector.frames video_path)))
                  res Hn Hsorted 0) as Hlen.
    rewrite Z.sub_0_r in Hlen.
    assert (0 ≤ (Z.of_nat (length (YOLODetector.frames video_path))
                 + process_every_n_frames - 1) / process_every_n_frames)%Z
      by (apply Z.div_pos; lia).
    rewrite Z.max_r in Hlen by done. apply Hlen.
    eapply Forall_impl; [exact Hforall|].
    intros fr (Hrange & Hmod & _). split; [done|lia].
  - eapply Forall_impl; [exact Hforall|].
    intros fr (Hrange & Hmod & Hdet & (f & Hf & Hdi) & _ & Hts).
    rewrite Z.sub_0_r in Hf. rewrite Hts.
    repeat split; try done; try lia; [by exists f|by apply round_2_near].
Qed.

Lemma detect_video_frames_keeps_sampled_frames_with_detections_witness :
  ∃ res : YOLODetector.video_result string,
    YOLODetector.detect_video_frames (λ k : nat, Ok (replicate k "box"))
      {| YOLODetector.is_opened := true; YOLODetector.prop_frame_count := 5;
         YOLODetector.prop_fps := 30;
         YOLODetector.frames := [2; 0; 0; 3; 1]%nat |}
      2
    = Ok res
    ∧ YOLODetector.processed_frames res
      = Z.of_nat (length (YOLODetector.frame_results res))
    ∧ (YOLODetector.processed_frames res ≤ (5 + 2 - 1) / 2)%Z.
Proof.
  destruct (detect_video_frames_keeps_sampled_frames_with_detections
              (λ k : nat, Ok (replicate k "box"))
              {| YOLODetector.is_opened := true;
                 YOLODetector.prop_frame_count := 5;
                 YOLODetector.prop_fps := 30;
                 YOLODetector.frames := [2; 0; 0; 3; 1]%nat |} 2)
    as (res & Hres & _ & _ & Hlen & Hbound & _); try done.
  - repeat constructor; by eexists.
  - by exists res.
Defined.

Example detect_video_frames_example :
  YOLODetector.frame_results <$>
    YOLODetector.detect_video_frames (λ k : nat, Ok (replicate k "box"))
      {| YOLODetector.is_opened := true; YOLODetector.prop_frame_count := 5;
         YOLODetector.prop_fps := 30;
         YOLODetector.frames := [2; 0; 0; 3; 1]%nat |}
      2
  = Ok [ {| YOLODetector.frame_number := 0; YOLODetector.timestamp := 0;
            YOLODetector.detections := ["box"; "box"] |};
         {| YOLODetector.frame_number := 4; YOLODetector.timestamp := 0.13;
            YOLODetector.detections := ["box"] |} ].
Proof. vm_compute. reflexivity. Qed.

(** X18. Nothing that was sampled and detected is lost: when
    [detect_video_frames] returns (with a step that is not zero), every frame
    whose index is a multiple of the step and on which the detector returned
    a non-empty list has a frame result with that index and that list. *)
Theorem detect_video_frames_drops_no_sampled_detection
    {frame D : Type} (detect_image : frame → result (list D))
    (video_path : YOLODetector.video frame) (process_every_n_frames : Z)
    (res : YOLODetector.video_result D) :
  process_every_n_frames ≠ 0%Z →
  YOLODetector.detect_video_frames detect_image video_path
    process_every_n_frames = Ok res →
  ∀ (i : nat) (f : frame) (ds : list D),
    YOLODetector.frames video_path !! i = Some f →
    (Z.of_nat i mod process_every_n_frames = 0)%Z →
    detect_image f = Ok ds → ds ≠ [] →
    ∃ fr, fr ∈ YOLODetector.frame_results res
          ∧ YOLODetector.frame_number fr = Z.of_nat i
          ∧ YOLODetector.detections fr = ds.
Proof.
  intros Hn. unfold YOLODetector.detect_video_frames.
  destruct (YOLODetector.is_opened video_path); cbn [negb]; [|intros [=]].
  destruct (YOLODetector.read_loop _ _ _ _ _ _) as [results|e] eqn:Hloop;
    cbn [mbind result_bind mret result_ret]; [|intros [=]].
  intros [= <-] i f ds Hi Hmod Hdi Hds.
  cbn [YOLODetector.frame_results].
  destruct (read_loop_complete _ _ _ _ Hn _ _ _ Hloop i f ds Hi)
    as (fr & Hin & Hfn & Hdet); try done.
  exists fr. by rewrite Z.add_0_l in Hfn.
Qed.

Lemma detect_video_frames_drops_no_sampled_detection_witness :
  ∃ fr,
    fr ∈ [ {| YOLODetector.frame_number := 0; YOLODetector.timestamp := 0;
              YOLODetector.detections := ["box"; "box"] |};
           {| YOLODetector.frame_number := 4; YOLODetector.timestamp := 0.13;
              YOLODetector.detections := ["box"] |} ]
    ∧ YOLODetector.frame_number fr = 4%Z
    ∧ YOLODetector.detections fr = ["box"].
Proof.
  apply (detect_video_frames_drops_no_sampled_detection
           (λ k : nat, Ok (replicate k "box"))
           {| YOLODetector.is_opened := true;
              YOLODetector.prop_frame_count := 5;
              YOLODetector.prop_fps := 30;
              YOLODetector.frames := [2; 0; 0; 3; 1]%nat |} 2
           {| YOLODetector.total_frames := 5; YOLODetector.fps := 30;
              YOLODetector.processed_frames := 2;
              YOLODetector.frame_results :=
                [ {| YOLODetector.frame_number := 0;
                     YOLODetector.timestamp := 0;
                     YOLODetector.detections := ["box"; "box"] |};
                  {| YOLODetector.frame_number := 4;
                     YOLODetector.timestamp := 0.13;
                     YOLODetector.detections := ["box"] |} ] |}
           ltac:(discriminate) ltac:(vm_compute; reflexivity)
           4%nat 1%nat ["box"]); try done.
Defined.

(** X19. A frame rate of zero is harmless until something is detected: for
    an opened video, a step that is not zero and a detector that returns on
    every frame, [detect_video_frames] raises [ZeroDivisionError] when the
    frame rate is zero and some sampled frame has a detection (the timestamp
    divides by the frame rate), and it returns with no frame results, for
    any frame rate, when no sampled frame has a detection. *)
Theorem detect_video_frames_zero_fps
    {frame D : Type} (detect_image : frame → result (list D))
    (video_path : YOLODetector.video frame) (process_every_n_frames : Z) :
  YOLODetector.is_opened video_path = true →
  process_every_n_frames ≠ 0%Z →
  (YOLODetector.prop_fps video_path = 0%Z →
   Forall (λ f, ∃ ds, detect_image f = Ok ds)
          (YOLODetector.frames video_path) →
   (∃ (i : nat) (f : frame) (ds : list D),
      YOLODetector.frames video_path !! i = Some f
      ∧ (Z.of_nat i mod process_every_n_frames = 0)%Z
      ∧ detect_image f = Ok ds ∧ ds ≠ []) →
   YOLODetector.detect_video_frames detect_image video_path
     process_every_n_frames = Raise ZeroDivisionError)
  ∧ ((∀ (i : nat) (f : frame),
        YOLODetector.frames video_path !! i = Some f →
        (Z.of_nat i mod process_every_n_frames = 0)%Z →
        detect_image f = Ok []) →
     YOLODetector.detect_video_frames detect_image video_path
       process_every_n_frames
     = Ok {| YOLODetector.total_frames :=
               YOLODetector.prop_frame_count video_path;
             YOLODetector.fps := YOLODetector.prop_fps video_path;
             YOLODetector.processed_frames := 0;
             YOLODetector.frame_results := [] |}).
Proof.
  intros Hopen Hn. unfold YOLODetector.detect_video_frames.
  rewrite Hopen. cbn [negb]. split.
  - intros Hfps Hall (i & f & ds & Hi & Hmod & Hdi & Hds).
    rewrite (read_loop_zero_fps_raises _ _ _ _ Hn Hfps Hall 0%Z [] i f ds);
      done.
  - intros Hnone. rewrite read_loop_no_detections; [done|done|].
    intros i f Hi Hmod. by apply (Hnone i f).
Qed.

Lemma detect_video_frames_zero_fps_witness :
  YOLODetector.detect_video_frames (λ k : nat, Ok (replicate k "box"))
    {| YOLODetector.is_opened := true; YOLODetector.prop_frame_count := 5;
       YOLODetector.prop_fps := 0;
       YOLODetector.frames := [0; 2; 0; 3; 1]%nat |}
    2
  = Raise ZeroDivisionError.
Proof.
  apply (detect_video_frames_zero_fps (λ k : nat, Ok (replicate k "box"))
           {| YOLODetector.is_opened := true;
              YOLODetector.prop_frame_count := 5;
              YOLODetector.prop_fps := 0;
              YOLODetector.frames := [0; 2; 0; 3; 1]%nat |} 2);
    try done.
  - repeat constructor; by eexists.
  - by exists 4%nat, 1%nat, ["box"].
Defined.
